(** * physiCCs: the simulation-and-mapping engine

    A shallow embedding of the three physics modules (gravity.py,
    particle.py, pendulum.py) and of the MIDI helpers of
    midi_physics_base.py, followed by the properties claimed of them.

    Numbers.  Python floats are modelled by the real numbers [R]: every
    arithmetic operation is the exact one, so rounding error, overflow,
    infinities and NaN are outside the model.  Python ints (pixel
    coordinates, CC numbers, MIDI data bytes) are [Z] and enter float
    arithmetic through [IZR].  A float division whose divisor is a program
    variable goes through [Py.div], which fails on a zero divisor the way
    Python raises ZeroDivisionError; divisions by non-zero literals and
    by the fixed layout constants are written with the total [/].
    One computation is carried out in IEEE 754 binary64 as well, with the
    kernel's primitive floats: grabbing a slider of the gravity module and
    dragging it (module [Binary64]), where rounding changes what is sent.

    Attributes that are assigned once in [__init__] and never written again
    (slider geometry, the arena size, pendulum gravity and damping, ...) are
    top-level constants of the module that owns them; attributes that the
    code mutates are fields of the module's state record.  Drawing code and
    the interactive console set-up have no counterpart here. *)

From Stdlib Require Import Reals Lra Lia ZArith String.
From Stdlib Require Floats.PrimFloat.
From stdpp Require Import base option list.

#[local] Open Scope R_scope.

(** ** Python numerics *)

Module Py.

#[global] Instance Rle_decision (x y : R) : Decision (x <= y) := Rle_dec x y.
#[global] Instance Rlt_decision (x y : R) : Decision (x < y) := Rlt_dec x y.
#[global] Instance Rge_decision (x y : R) : Decision (x >= y) := Rge_dec x y.
#[global] Instance Rgt_decision (x y : R) : Decision (x > y) := Rgt_dec x y.
#[global] Instance Req_decision : EqDecision R := Req_dec_T.

(** [int(x)] on a float: truncation toward zero. *)
Definition int (x : R) : Z :=
  if decide (0 <= x) then Int_part x else (- Int_part (- x))%Z.

(** [a / b] on floats, for a divisor that is not a literal. *)
Definition div (a b : R) : option R :=
  if decide (b = 0) then None else Some (a / b).

(** [max(lo, min(hi, x))], the clamping idiom used throughout. *)
Definition clamp (lo hi x : R) : R := Rmax lo (Rmin hi x).
Definition clampZ (lo hi x : Z) : Z := Z.max lo (Z.min hi x).

End Py.

(** ** midi_physics_base.py *)

Module Base.

(** One [write_short] on the output port: status byte and two data bytes. *)
Definition short : Type := Z * Z * Z.

(** [midi_out] is [None] until [connect_midi] succeeds; an open port is
    represented by the messages written to it so far, oldest first. *)
Record t := mk {
  midi_out : option (list short);
  midi_channel : Z
}.

Definition init : t := {| midi_out := None; midi_channel := 1 |}.

Definition write_short (b : t) (status data1 data2 : Z) : t :=
  match midi_out b with
  | Some log => {| midi_out := Some (log ++ [(status, data1, data2)]);
                   midi_channel := midi_channel b |}
  | None => b
  end.

(** [send_cc]: the value may be a float (the gravity module passes one);
    it is range-checked as it is and truncated on the way out. *)
Definition send_cc (b : t) (cc_number : Z) (value : R) : t :=
  if bool_decide (is_Some (midi_out b))
     && bool_decide (0 <= cc_number <= 127)%Z
     && bool_decide (0 <= value <= 127)
  then write_short b (Z.lor 0xB0 (midi_channel b)) cc_number (Py.int value)
  else b.

Definition send_pitch_bend (b : t) (value : Z) : t :=
  if bool_decide (is_Some (midi_out b)) then
    let pitch_value := Py.clampZ 0 16383 (value + 8192) in
    let lsb := Z.land pitch_value 0x7F in
    let msb := Z.land (Z.shiftr pitch_value 7) 0x7F in
    write_short b (Z.lor 0xE0 (midi_channel b)) lsb msb
  else b.

(** [pygame.Rect(x, y, w, h).collidepoint(px, py)]: the right and bottom
    edges are outside the rectangle. *)
Definition collidepoint (x y w h px py : Z) : bool :=
  bool_decide (x <= px < x + w)%Z && bool_decide (y <= py < y + h)%Z.

(** The events the modules react to; the pointer position is not read from
    the event but from [pygame.mouse.get_pos()] and is passed alongside. *)
Inductive event :=
| MOUSEBUTTONDOWN (button : Z)
| MOUSEBUTTONUP (button : Z)
| MOUSEMOTION
| OTHER.

End Base.

(** ** gravity.py *)

Module Gravity.

Record controller := mk_controller {
  cc : Z;
  value : R;
  velocity : R;
  name : string
}.

Record t := mk {
  base : Base.t;
  controllers : list controller;
  gravity_strength : R;
  dragging_controller : option nat;
  dragging_gravity : bool;
  mouse_offset : R
}.

Definition controller_width : Z := 80.
Definition controller_height : Z := 300.
Definition controller_spacing : Z := 150.
Definition controller_start_x : Z := 100.
Definition controller_y : Z := 200.
Definition gravity_slider_x : Z := 600.
Definition gravity_slider_y : Z := 150.
Definition gravity_slider_height : Z := 200.
Definition gravity_slider_width : Z := 30.

Definition init : t := {|
  base := Base.init;
  controllers :=
    [ mk_controller 74 64 0 "Controller 1";
      mk_controller 75 64 0 "Controller 2";
      mk_controller 76 64 0 "Controller 3" ];
  gravity_strength := 0.5;
  dragging_controller := None;
  dragging_gravity := false;
  mouse_offset := 0
|}.

Definition get_gravity_force (s : t) : R :=
  if decide (gravity_strength s = 0) then 0
  else gravity_strength s * gravity_strength s * 0.8.

(** The body of the [for controller in self.controllers] loop of [update]. *)
Definition update_controller (gravity_force : R) (b : Base.t) (c : controller)
  : Base.t * controller :=
  let center := 64 in
  let distance_from_center := value c - center in
  if decide (Rabs distance_from_center > 0.1) then
    let gravity_acceleration := - distance_from_center * gravity_force * 0.1 in
    let velocity1 := velocity c + gravity_acceleration in
    let velocity2 := velocity1 * 0.98 in
    let value1 := value c + velocity2 in
    let value2 := Py.clamp 0 127 value1 in
    (Base.send_cc b (cc c) value2, mk_controller (cc c) value2 velocity2 (name c))
  else if decide (gravity_force > 0) then
    (b, mk_controller (cc c) center 0 (name c))
  else (b, c).

Fixpoint update_controllers (gravity_force : R) (b : Base.t) (cs : list controller)
  : Base.t * list controller :=
  match cs with
  | [] => (b, [])
  | c :: rest =>
      let '(b1, c1) := update_controller gravity_force b c in
      let '(b2, rest1) := update_controllers gravity_force b1 rest in
      (b2, c1 :: rest1)
  end.

Definition update (s : t) : t :=
  let gravity_force := get_gravity_force s in
  let '(b, cs) := update_controllers gravity_force (base s) (controllers s) in
  {| base := b; controllers := cs; gravity_strength := gravity_strength s;
     dragging_controller := dragging_controller s;
     dragging_gravity := dragging_gravity s; mouse_offset := mouse_offset s |}.

(** [slider_rect.collidepoint(mouse_x, mouse_y)] for slider number [i]. *)
Definition slider_hit (i : nat) (mouse_x mouse_y : Z) : bool :=
  let slider_x := (controller_start_x + Z.of_nat i * controller_spacing)%Z in
  Base.collidepoint slider_x controller_y controller_width controller_height
    mouse_x mouse_y.

(** The handle position computed when a slider is grabbed. *)
Definition handle_y (controller : controller) : R :=
  IZR controller_y + IZR controller_height
  - (value controller / 127) * IZR controller_height.

(** The slider loop of the MOUSEBUTTONDOWN branch: the first slider whose
    rectangle holds the pointer is grabbed, and the loop breaks. *)
Fixpoint press_controllers (i : nat) (cs : list controller) (mouse_x mouse_y : Z)
  (s : t) : t :=
  match cs with
  | [] => s
  | controller :: rest =>
      if slider_hit i mouse_x mouse_y then
        {| base := base s; controllers := controllers s;
           gravity_strength := gravity_strength s;
           dragging_controller := Some i;
           dragging_gravity := dragging_gravity s;
           mouse_offset := IZR mouse_y - handle_y controller |}
      else press_controllers (S i) rest mouse_x mouse_y s
  end.

Definition press_gravity (mouse_x mouse_y : Z) (s : t) : t :=
  if Base.collidepoint gravity_slider_x gravity_slider_y
       gravity_slider_width gravity_slider_height mouse_x mouse_y
  then
    let handle_y := IZR gravity_slider_y + IZR gravity_slider_height
                    - gravity_strength s * IZR gravity_slider_height in
    {| base := base s; controllers := controllers s;
       gravity_strength := gravity_strength s;
       dragging_controller := dragging_controller s;
       dragging_gravity := true;
       mouse_offset := IZR mouse_y - handle_y |}
  else s.

(** [handle_mouse_events]; [None] stands for the IndexError of
    [self.controllers[self.dragging_controller]]. *)
Definition handle_mouse_events (s : t) (event : Base.event) (mouse_x mouse_y : Z)
  : option t :=
  match event with
  | Base.MOUSEBUTTONDOWN button =>
      if decide (button = 1%Z) then
        Some (press_gravity mouse_x mouse_y
                (press_controllers 0 (controllers s) mouse_x mouse_y s))
      else Some s
  | Base.MOUSEBUTTONUP button =>
      if decide (button = 1%Z) then
        Some {| base := base s; controllers := controllers s;
                gravity_strength := gravity_strength s;
                dragging_controller := None;
                dragging_gravity := false;
                mouse_offset := mouse_offset s |}
      else Some s
  | Base.MOUSEMOTION =>
      match dragging_controller s with
      | Some i =>
          controller ← controllers s !! i;
          let relative_y := IZR mouse_y - mouse_offset s - IZR controller_y in
          let normalized := 1 - relative_y / IZR controller_height in
          let normalized := Py.clamp 0 1 normalized in
          let value1 := normalized * 127 in
          Some {| base := Base.send_cc (base s) (cc controller) value1;
                  controllers :=
                    <[i := mk_controller (cc controller) value1 0 (name controller)]>
                      (controllers s);
                  gravity_strength := gravity_strength s;
                  dragging_controller := dragging_controller s;
                  dragging_gravity := dragging_gravity s;
                  mouse_offset := mouse_offset s |}
      | None =>
          if dragging_gravity s then
            let relative_y := IZR mouse_y - mouse_offset s - IZR gravity_slider_y in
            let normalized := 1 - relative_y / IZR gravity_slider_height in
            Some {| base := base s; controllers := controllers s;
                    gravity_strength := Py.clamp 0 1 normalized;
                    dragging_controller := dragging_controller s;
                    dragging_gravity := dragging_gravity s;
                    mouse_offset := mouse_offset s |}
          else Some s
      end
  | Base.OTHER => Some s
  end.

(** [n] frames in which no event arrives: [update] runs [n] times. *)
Definition ticks (n : nat) (s : t) : t := Nat.iter n update s.

End Gravity.

(** ** particle.py *)

Module Particle.

(** A particle dict; its [color] entry is only read by the drawing code and
    is left out.  [x] and [y] start as ints and [radius] stays one; all
    three take part in float arithmetic and are reals here. *)
Record particle := mk_particle {
  x : R;
  y : R;
  vx : R;
  vy : R;
  radius : R;
  cc_x : Z;
  cc_y : Z
}.

Record t := mk {
  base : Base.t;
  red_particle : particle;
  green_particle : particle;
  temperature : R;
  dragging_temperature : bool;
  mouse_offset : R
}.

Definition sim_width : Z := 400.
Definition sim_height : Z := 400.
Definition max_speed_multiplier : R := 3.
Definition temp_slider_x : Z := 500.
Definition temp_slider_y : Z := 150.
Definition temp_slider_height : Z := 200.
Definition temp_slider_width : Z := 30.

(** [__init__] draws positions and velocities at random; the draws are the
    arguments. *)
Definition init (rx ry gx gy : Z) (rvx rvy gvx gvy : R) : t := {|
  base := Base.init;
  red_particle := mk_particle (IZR rx) (IZR ry) rvx rvy 15 74 75;
  green_particle := mk_particle (IZR gx) (IZR gy) gvx gvy 15 76 77;
  temperature := 0.5;
  dragging_temperature := false;
  mouse_offset := 0
|}.

Definition get_speed_multiplier (temperature : R) : R :=
  1 + temperature * (max_speed_multiplier - 1).

(** The distance between the centers, the collision normal (from the second
    center to the first) and the relative velocity along it, as
    [resolve_particle_collision] computes them. *)
Definition center_distance (p1 p2 : particle) : R :=
  let dx := x p1 - x p2 in
  let dy := y p1 - y p2 in
  sqrt (dx * dx + dy * dy).

Definition collision_normal (p1 p2 : particle) : R * R :=
  ((x p1 - x p2) / center_distance p1 p2, (y p1 - y p2) / center_distance p1 p2).

Definition normal_speed (p1 p2 : particle) : R :=
  let '(nx, ny) := collision_normal p1 p2 in
  (vx p1 - vx p2) * nx + (vy p1 - vy p2) * ny.

Definition check_particle_collision (p1 p2 : particle) : bool :=
  let dx := x p1 - x p2 in
  let dy := y p1 - y p2 in
  let distance := sqrt (dx * dx + dy * dy) in
  bool_decide (distance < radius p1 + radius p2).

(** [resolve_particle_collision] mutates both dicts; the pair of updated
    particles is returned.  [None] would be a ZeroDivisionError. *)
Definition resolve_particle_collision (p1 p2 : particle)
  : option (particle * particle) :=
  let dx := x p1 - x p2 in
  let dy := y p1 - y p2 in
  let distance := sqrt (dx * dx + dy * dy) in
  if decide (distance = 0) then Some (p1, p2)
  else
    nx ← Py.div dx distance;
    ny ← Py.div dy distance;
    let overlap := (radius p1 + radius p2) - distance in
    let x1 := x p1 + nx * overlap * 0.5 in
    let y1 := y p1 + ny * overlap * 0.5 in
    let x2 := x p2 - nx * overlap * 0.5 in
    let y2 := y p2 - ny * overlap * 0.5 in
    let rvx := vx p1 - vx p2 in
    let rvy := vy p1 - vy p2 in
    let speed := rvx * nx + rvy * ny in
    if decide (speed > 0) then
      Some (mk_particle x1 y1 (vx p1) (vy p1) (radius p1) (cc_x p1) (cc_y p1),
            mk_particle x2 y2 (vx p2) (vy p2) (radius p2) (cc_x p2) (cc_y p2))
    else
      Some (mk_particle x1 y1 (vx p1 - speed * nx) (vy p1 - speed * ny)
              (radius p1) (cc_x p1) (cc_y p1),
            mk_particle x2 y2 (vx p2 + speed * nx) (vy p2 + speed * ny)
              (radius p2) (cc_x p2) (cc_y p2)).

(** One axis of the boundary test of [update_particle]: the moved
    coordinate [pos], the velocity component [vel] and the far wall
    [bound]. *)
Definition bounce (pos vel radius bound : R) : R * R :=
  if decide (pos <= radius) then (radius, Rabs vel)
  else if decide (pos >= bound - radius) then (bound - radius, - Rabs vel)
  else (pos, vel).

Definition update_particle (temperature : R) (p : particle) : particle :=
  let speed_mult := get_speed_multiplier temperature in
  let x1 := x p + vx p * speed_mult in
  let y1 := y p + vy p * speed_mult in
  let '(x2, vx2) := bounce x1 (vx p) (radius p) (IZR sim_width) in
  let '(y2, vy2) := bounce y1 (vy p) (radius p) (IZR sim_height) in
  mk_particle x2 y2 vx2 vy2 (radius p) (cc_x p) (cc_y p).

(** The two values [send_particle_midi] computes before sending them. *)
Definition x_midi (p : particle) : Z :=
  Py.clampZ 0 127 (Py.int ((x p / IZR sim_width) * 127)).
Definition y_midi (p : particle) : Z :=
  Py.clampZ 0 127 (Py.int ((y p / IZR sim_height) * 127)).

Definition send_particle_midi (b : Base.t) (p : particle) : Base.t :=
  Base.send_cc (Base.send_cc b (cc_x p) (IZR (x_midi p))) (cc_y p) (IZR (y_midi p)).

Definition update (s : t) : option t :=
  let red := update_particle (temperature s) (red_particle s) in
  let green := update_particle (temperature s) (green_particle s) in
  '(red1, green1) ←
    (if check_particle_collision red green
     then resolve_particle_collision red green
     else Some (red, green));
  let b := send_particle_midi (send_particle_midi (base s) red1) green1 in
  Some {| base := b; red_particle := red1; green_particle := green1;
          temperature := temperature s;
          dragging_temperature := dragging_temperature s;
          mouse_offset := mouse_offset s |}.

Definition handle_mouse_events (s : t) (event : Base.event) (mouse_x mouse_y : Z) : t :=
  match event with
  | Base.MOUSEBUTTONDOWN button =>
      if decide (button = 1%Z) then
        if Base.collidepoint temp_slider_x temp_slider_y
             temp_slider_width temp_slider_height mouse_x mouse_y
        then
          let handle_y := IZR temp_slider_y + IZR temp_slider_height
                          - temperature s * IZR temp_slider_height in
          {| base := base s; red_particle := red_particle s;
             green_particle := green_particle s; temperature := temperature s;
             dragging_temperature := true;
             mouse_offset := IZR mouse_y - handle_y |}
        else s
      else s
  | Base.MOUSEBUTTONUP button =>
      if decide (button = 1%Z) then
        {| base := base s; red_particle := red_particle s;
           green_particle := green_particle s; temperature := temperature s;
           dragging_temperature := false; mouse_offset := mouse_offset s |}
      else s
  | Base.MOUSEMOTION =>
      if dragging_temperature s then
        let relative_y := IZR mouse_y - mouse_offset s - IZR temp_slider_y in
        let normalized := 1 - relative_y / IZR temp_slider_height in
        {| base := base s; red_particle := red_particle s;
           green_particle := green_particle s;
           temperature := Py.clamp 0 1 normalized;
           dragging_temperature := dragging_temperature s;
           mouse_offset := mouse_offset s |}
      else s
  | Base.OTHER => s
  end.

End Particle.

(** ** pendulum.py *)

Module Pendulum.

Record t := mk {
  base : Base.t;
  length : R;
  angle : R;
  angular_velocity : R;
  current_mode : Z;
  cc_number : Z;
  trail_points : list (R * R);
  dragging_length : bool;
  dragging_pendulum : bool;
  mouse_offset : R
}.

Definition max_length : Z := 300.
Definition min_length : Z := 100.
Definition gravity : R := 0.5.
Definition damping : R := 0.999.
Definition pivot_x : Z := 400.
Definition pivot_y : Z := 150.
Definition output_modes : list string := ["MIDI CC"; "Pitch Bend"]%string.
Definition bob_radius : Z := 20.
Definition max_trail_length : nat := 50.
Definition length_slider_x : Z := 550.
Definition length_slider_y : Z := 150.
Definition length_slider_height : Z := 200.
Definition length_slider_width : Z := 30.
Definition mode_button_x : Z := 550.
Definition mode_button_y : Z := 400.
Definition mode_button_width : Z := 120.
Definition mode_button_height : Z := 40.

Definition init : t := {|
  base := Base.init;
  length := 200;
  angle := PI / 4;
  angular_velocity := 0;
  current_mode := 0;
  cc_number := 74;
  trail_points := [];
  dragging_length := false;
  dragging_pendulum := false;
  mouse_offset := 0
|}.

(** The arm length stays between the two ends of the length slider. *)
Definition length_ok (s : t) : Prop :=
  IZR min_length <= length s <= IZR max_length.

Definition calculate_pendulum_position (s : t) : R * R :=
  (IZR pivot_x + length s * sin (angle s), IZR pivot_y + length s * cos (angle s)).

(** [update_physics]; [None] is the ZeroDivisionError of
    [self.gravity / self.length]. *)
Definition update_physics (s : t) : option t :=
  g_over_l ← Py.div gravity (length s);
  let angular_acceleration := - g_over_l * sin (angle s) * 0.1 in
  let angular_velocity1 := angular_velocity s + angular_acceleration in
  let angular_velocity2 := angular_velocity1 * damping in
  let angle1 := angle s + angular_velocity2 in
  let s1 := {| base := base s; length := length s; angle := angle1;
               angular_velocity := angular_velocity2;
               current_mode := current_mode s; cc_number := cc_number s;
               trail_points := trail_points s;
               dragging_length := dragging_length s;
               dragging_pendulum := dragging_pendulum s;
               mouse_offset := mouse_offset s |} in
  let trail := trail_points s ++ [calculate_pendulum_position s1] in
  let trail := if decide (max_trail_length < List.length trail)%nat
               then tail trail else trail in
  Some {| base := base s1; length := length s1; angle := angle s1;
          angular_velocity := angular_velocity s1;
          current_mode := current_mode s1; cc_number := cc_number s1;
          trail_points := trail;
          dragging_length := dragging_length s1;
          dragging_pendulum := dragging_pendulum s1;
          mouse_offset := mouse_offset s1 |}.

(** The value of [cc_value] in the MIDI CC branch of
    [generate_midi_output], computed from the bob position [bob_x]. *)
Definition cc_value (length bob_x : R) : option Z :=
  let swing_range := length * 2 in
  let relative_x := bob_x - (IZR pivot_x - length) in
  normalized ← Py.div relative_x swing_range;
  Some (Py.clampZ 0 127 (Py.int (normalized * 127))).

(** The value of [pitch_value] in the Pitch Bend branch. *)
Definition pitch_value (length bob_x : R) : option Z :=
  let relative_x := bob_x - IZR pivot_x in
  normalized ← Py.div relative_x length;
  Some (Py.clampZ (-8192) 8191 (Py.int (normalized * 8192))).

Definition set_base (s : t) (b : Base.t) : t :=
  {| base := b; length := length s; angle := angle s;
     angular_velocity := angular_velocity s;
     current_mode := current_mode s; cc_number := cc_number s;
     trail_points := trail_points s;
     dragging_length := dragging_length s;
     dragging_pendulum := dragging_pendulum s;
     mouse_offset := mouse_offset s |}.

Definition generate_midi_output (s : t) : option t :=
  let '(bob_x, bob_y) := calculate_pendulum_position s in
  if decide (current_mode s = 0%Z) then
    v ← cc_value (length s) bob_x;
    Some (set_base s (Base.send_cc (base s) (cc_number s) (IZR v)))
  else if decide (current_mode s = 1%Z) then
    v ← pitch_value (length s) bob_x;
    Some (set_base s (Base.send_pitch_bend (base s) v))
  else Some s.

Definition update (s : t) : option t :=
  s1 ← (if dragging_pendulum s then Some s else update_physics s);
  generate_midi_output s1.

Definition press_length (mouse_x mouse_y : Z) (s : t) : t :=
  if Base.collidepoint length_slider_x length_slider_y
       length_slider_width length_slider_height mouse_x mouse_y
  then
    let length_norm := (length s - IZR min_length) / (IZR max_length - IZR min_length) in
    let handle_y := IZR length_slider_y + IZR length_slider_height
                    - length_norm * IZR length_slider_height in
    {| base := base s; length := length s; angle := angle s;
       angular_velocity := angular_velocity s;
       current_mode := current_mode s; cc_number := cc_number s;
       trail_points := trail_points s;
       dragging_length := true;
       dragging_pendulum := dragging_pendulum s;
       mouse_offset := IZR mouse_y - handle_y |}
  else s.

Definition press_mode (mouse_x mouse_y : Z) (s : t) : t :=
  if Base.collidepoint mode_button_x mode_button_y
       mode_button_width mode_button_height mouse_x mouse_y
  then
    {| base := base s; length := length s; angle := angle s;
       angular_velocity := angular_velocity s;
       current_mode := (current_mode s + 1) `mod` Z.of_nat (List.length output_modes);
       cc_number := cc_number s;
       trail_points := trail_points s;
       dragging_length := dragging_length s;
       dragging_pendulum := dragging_pendulum s;
       mouse_offset := mouse_offset s |}
  else s.

Definition press_bob (mouse_x mouse_y : Z) (s : t) : t :=
  let '(bob_x, bob_y) := calculate_pendulum_position s in
  let bob_distance := sqrt ((IZR mouse_x - bob_x) ^ 2 + (IZR mouse_y - bob_y) ^ 2) in
  if decide (bob_distance < IZR (bob_radius * 2)) then
    {| base := base s; length := length s; angle := angle s;
       angular_velocity := 0;
       current_mode := current_mode s; cc_number := cc_number s;
       trail_points := trail_points s;
       dragging_length := dragging_length s;
       dragging_pendulum := true;
       mouse_offset := mouse_offset s |}
  else s.

(** In the drag branch [math.atan2(dx, dy)] is only evaluated for [dy > 0],
    where it is [atan (dx / dy)]. *)
Definition handle_mouse_events (s : t) (event : Base.event) (mouse_x mouse_y : Z) : t :=
  match event with
  | Base.MOUSEBUTTONDOWN button =>
      if decide (button = 1%Z) then
        press_bob mouse_x mouse_y
          (press_mode mouse_x mouse_y (press_length mouse_x mouse_y s))
      else s
  | Base.MOUSEBUTTONUP button =>
      if decide (button = 1%Z) then
        {| base := base s; length := length s; angle := angle s;
           angular_velocity := angular_velocity s;
           current_mode := current_mode s; cc_number := cc_number s;
           trail_points := trail_points s;
           dragging_length := false;
           dragging_pendulum := false;
           mouse_offset := mouse_offset s |}
      else s
  | Base.MOUSEMOTION =>
      if dragging_length s then
        let relative_y := IZR mouse_y - mouse_offset s - IZR length_slider_y in
        let normalized := 1 - relative_y / IZR length_slider_height in
        let normalized := Py.clamp 0 1 normalized in
        {| base := base s;
           length := IZR min_length + normalized * (IZR max_length - IZR min_length);
           angle := angle s;
           angular_velocity := angular_velocity s;
           current_mode := current_mode s; cc_number := cc_number s;
           trail_points := trail_points s;
           dragging_length := dragging_length s;
           dragging_pendulum := dragging_pendulum s;
           mouse_offset := mouse_offset s |}
      else if dragging_pendulum s then
        let dx := (mouse_x - pivot_x)%Z in
        let dy := (mouse_y - pivot_y)%Z in
        if decide (dy > 0)%Z then
          let angle1 := atan (IZR dx / IZR dy) in
          let max_angle := PI * 0.8 in
          {| base := base s; length := length s;
             angle := Py.clamp (- max_angle) max_angle angle1;
             angular_velocity := angular_velocity s;
             current_mode := current_mode s; cc_number := cc_number s;
             trail_points := trail_points s;
             dragging_length := dragging_length s;
             dragging_pendulum := dragging_pendulum s;
             mouse_offset := mouse_offset s |}
        else s
      else s
  | Base.OTHER => s
  end.

End Pendulum.

(** ** gravity.py in binary64: grabbing a slider and dragging it

    The slider arithmetic of the press and drag branches of
    [GravityModule.handle_mouse_events] once more, in IEEE 754 binary64 as
    Python's floats carry it out.  The ints that enter it (pointer
    coordinates, the layout constants, 127, a slider value that is an int)
    are exact as floats, and each Python operation on them is one rounded
    operation here. *)

Module Binary64.

Import PrimFloat.
#[local] Open Scope float_scope.

Definition controller_height : float := 300.
Definition controller_y : float := 200.

(** [handle_y] of the press branch; the two int attributes are added
    first. *)
Definition handle_y (value : float) : float :=
  (controller_y + controller_height) - (value / 127) * controller_height.

(** [self.mouse_offset] as the press branch sets it. *)
Definition mouse_offset (mouse_y value : float) : float :=
  mouse_y - handle_y value.

(** [max(0, min(1, normalized))]: [min] returns its second argument when it
    is the smaller, [max] its second argument when it is the larger. *)
Definition clamp01 (normalized : float) : float :=
  let m := if ltb normalized 1 then normalized else 1 in
  if ltb 0 m then m else 0.

(** The value the drag branch writes into the controller. *)
Definition drag_value (mouse_y mouse_offset : float) : float :=
  let relative_y := mouse_y - mouse_offset - controller_y in
  let normalized := 1 - relative_y / controller_height in
  clamp01 normalized * 127.

(** Press at height [mouse_y] on a slider holding [value], then a drag event
    at the same height. *)
Definition round_trip (mouse_y value : float) : float :=
  drag_value mouse_y (mouse_offset mouse_y value).

(** The floats [from], [from + 1], ..., [n] of them. *)
Fixpoint integers (n : nat) (from : float) : list float :=
  match n with
  | O => []
  | S n' => from :: integers n' (from + 1)
  end.

(** The values among 0, 1, ..., 127 that the round trip changes, and those
    it lowers. *)
Definition changed (mouse_y : float) : list float :=
  filter (fun value => negb (eqb (round_trip mouse_y value) value) = true)
    (integers 128 0).

Definition lowered (mouse_y : float) : list float :=
  filter (fun value => ltb (round_trip mouse_y value) value = true)
    (integers 128 0).

End Binary64.

(** ** Exact trajectories of the spring-return tick

    At gravity strength 1 the force is 0.8 and a tick outside the deadzone
    takes the distance [d] from the center and the velocity [v] to
    [v' = (v - 0.08 d) * 0.98] and [d' = d + v'].  With [d = num_d / scale]
    and [v = num_v / scale] this is integer arithmetic on a scale that grows
    by a factor 1250 per tick; [run] follows it for as long as the channel
    is outside the deadzone and the clamp to [0,127] does not bite. *)

Module Scaled.

Record t := mk { num_d : Z; num_v : Z; scale : Z }.

Definition outside (z : t) : bool :=
  bool_decide (scale z < 10 * Z.abs (num_d z))%Z.

Definition step (z : t) : t :=
  let v := (49 * (25 * num_v z - 2 * num_d z))%Z in
  {| num_d := 1250 * num_d z + v; num_v := v; scale := 1250 * scale z |}.

Definition unclamped (z : t) : bool :=
  bool_decide (- 64 * scale z <= num_d z <= 63 * scale z)%Z.

Fixpoint run (n : nat) (z : t) : option t :=
  match n with
  | O => Some z
  | S n' => if outside z && unclamped (step z) then run n' (step z) else None
  end.

(** [n] ticks outside the deadzone lead into it. *)
Definition lands (n : nat) (z : t) : bool :=
  match run n z with
  | Some z' => negb (outside z')
  | None => false
  end.

(** Value 127, velocity 0. *)
Definition start : t := {| num_d := 63; num_v := 0; scale := 1 |}.

(** The controller [c] is at the point the scaled triple [z] denotes. *)
Definition represents (z : t) (c : Gravity.controller) : Prop :=
  (0 < scale z)%Z
  /\ Gravity.value c - 64 = IZR (num_d z) / IZR (scale z)
  /\ Gravity.velocity c = IZR (num_v z) / IZR (scale z).

End Scaled.

(** ** The specification's formulas

    Definitions written after the words of the specification, to be
    compared with the code above. *)

Module Spec.

(** Section 4.2, the integration step outside the deadzone. *)
Definition spring_integrate (g : R) (c : Gravity.controller) : Gravity.controller :=
  let restoring := g ^ 2 * 0.8 in
  let velocity1 := Gravity.velocity c + - (Gravity.value c - 64) * restoring * 0.1 in
  let velocity2 := velocity1 * 0.98 in
  let value1 := Gravity.value c + velocity2 in
  Gravity.mk_controller (Gravity.cc c) (Py.clamp 0 127 value1) velocity2
    (Gravity.name c).

(** Section 4.2 as it is worded: one tick of a spring-return channel with
    center 64; at [g = 0] the channel is left undisturbed by the tick. *)
Definition spring_tick (g : R) (c : Gravity.controller) : Gravity.controller :=
  if decide (g = 0) then c
  else if decide (Rabs (Gravity.value c - 64) > 0.1) then spring_integrate g c
  else if decide (g > 0) then
    Gravity.mk_controller (Gravity.cc c) 64 0 (Gravity.name c)
  else c.

(** The tick with the [g = 0] clause confined to the deadzone: outside the
    deadzone the integration step runs for every [g], with no force at
    [g = 0]. *)
Definition spring_tick_amended (g : R) (c : Gravity.controller) : Gravity.controller :=
  if decide (Rabs (Gravity.value c - 64) > 0.1) then spring_integrate g c
  else if decide (g > 0) then
    Gravity.mk_controller (Gravity.cc c) 64 0 (Gravity.name c)
  else c.

(** Section 4.6, rounding to the nearest integer (halves go up; no use
    below is at a half). *)
Definition round (x : R) : Z := Int_part (x + 1 / 2).

Definition toControlValue (x domainMin domainMax : R) : Z :=
  Py.clampZ 0 127 (round ((x - domainMin) / (domainMax - domainMin) * 127)).

Definition toPitchBend (norm : R) : Z :=
  Py.clampZ (-8192) 8191 (round (norm * 8192)).

(** The same two mappings with truncation toward zero in place of
    rounding to nearest. *)
Definition toControlValue_trunc (x domainMin domainMax : R) : Z :=
  Py.clampZ 0 127 (Py.int ((x - domainMin) / (domainMax - domainMin) * 127)).

Definition toPitchBend_trunc (norm : R) : Z :=
  Py.clampZ (-8192) 8191 (Py.int (norm * 8192)).

End Spec.

(** ** gravity.py: the gravity labels *)

Module Labels.

(** [self.gravity_labels], a dict, as the list of its items in insertion
    order. *)
Definition gravity_labels : list (R * string) :=
  [ (0, "Zero G"); (0.2, "Moon"); (0.5, "Earth"); (0.8, "Jupiter");
    (1, "Black Hole") ]%string.

(** [min(iterable, key=key)]: the first element whose key is the least;
    [None] is the ValueError on an empty iterable. *)
Fixpoint min_from (key : R -> R) (best : R) (rest : list R) : R :=
  match rest with
  | [] => best
  | k :: rest' => min_from key (if decide (key k < key best) then k else best) rest'
  end.

Definition py_min (key : R -> R) (l : list R) : option R :=
  match l with
  | [] => None
  | k :: rest => Some (min_from key k rest)
  end.

(** [d[k]] on the item list; [None] is the KeyError. *)
Fixpoint getitem (d : list (R * string)) (k : R) : option string :=
  match d with
  | [] => None
  | (k', v) :: rest => if decide (k' = k) then Some v else getitem rest k
  end.

Definition get_closest_gravity_label (s : Gravity.t) : option string :=
  closest_key ← py_min (fun x => Rabs (x - Gravity.gravity_strength s))
                  (map fst gravity_labels);
  getitem gravity_labels closest_key.

End Labels.

(** ** The run loops

    [GravityModule.run], [ParticleModule.run] and [PendulumModule.run] are
    the same loop around the module's [handle_mouse_events] and [update]:
    each frame drains the event queue, stopping at the first event
    [handle_base_events] rejects, then updates once.  The queue of a frame
    is a list of events, each with the pointer position
    [pygame.mouse.get_pos()] returns while it is handled. *)

Module Loop.

Inductive event :=
| QUIT
| KEYDOWN (key : Z)
| MOUSE (e : Base.event).

(** [pygame.K_ESCAPE]. *)
Definition K_ESCAPE : Z := 27.

Definition handle_base_events (e : event) : bool :=
  match e with
  | QUIT => false
  | KEYDOWN key => if decide (key = K_ESCAPE) then false else true
  | MOUSE _ => true
  end.

(** What the module's mouse handler sees of an event: QUIT and KEYDOWN
    match none of its branches. *)
Definition mouse_view (e : event) : Base.event :=
  match e with
  | MOUSE e' => e'
  | _ => Base.OTHER
  end.

Section run.

Context {S : Type}.
Variable handle_mouse_events : S -> Base.event -> Z -> Z -> option S.
Variable update : S -> option S.

(** The [for event in pygame.event.get()] loop; the flag is [self.running]. *)
Fixpoint events (s : S) (queue : list (event * Z * Z)) : option (bool * S) :=
  match queue with
  | [] => Some (true, s)
  | (e, mouse_x, mouse_y) :: rest =>
      if handle_base_events e then
        s1 ← handle_mouse_events s (mouse_view e) mouse_x mouse_y;
        events s1 rest
      else Some (false, s)
  end.

Definition frame (s : S) (queue : list (event * Z * Z)) : option (bool * S) :=
  '(running, s1) ← events s queue;
  if running : bool then s2 ← update s1; Some (true, s2) else Some (false, s1).

(** The [while self.running] loop over the given frames; it ends early when
    a frame clears [self.running]. *)
Fixpoint run (s : S) (frames : list (list (event * Z * Z))) : option S :=
  match frames with
  | [] => Some s
  | queue :: rest =>
      '(running, s1) ← frame s queue;
      if running : bool then run s1 rest else Some s1
  end.

End run.

Definition gravity_run : Gravity.t -> list (list (event * Z * Z)) -> option Gravity.t :=
  run Gravity.handle_mouse_events (fun s => Some (Gravity.update s)).

Definition particle_run : Particle.t -> list (list (event * Z * Z)) -> option Particle.t :=
  run (fun s e mouse_x mouse_y => Some (Particle.handle_mouse_events s e mouse_x mouse_y))
    Particle.update.

Definition pendulum_run : Pendulum.t -> list (list (event * Z * Z)) -> option Pendulum.t :=
  run (fun s e mouse_x mouse_y => Some (Pendulum.handle_mouse_events s e mouse_x mouse_y))
    Pendulum.update.

End Loop.

(** ** midi_physics_base.py: the connection test *)

Module Sweep.

(** [TestModule] of [test_midi_connection]: a CC value swept up and down. *)
Record t := mk {
  base : Base.t;
  test_value : R;
  direction : Z
}.

Definition test_cc : Z := 74.

Definition init : t := {| base := Base.init; test_value := 0; direction := 1 |}.

Definition update (s : t) : t :=
  let test_value1 := test_value s + IZR (direction s) * 0.5 in
  let '(test_value2, direction2) :=
    if decide (test_value1 >= 127) then (127, (-1)%Z)
    else if decide (test_value1 <= 0) then (0, 1%Z)
    else (test_value1, direction s) in
  {| base := Base.send_cc (base s) test_cc test_value2;
     test_value := test_value2; direction := direction2 |}.

End Sweep.

(** ** State invariants and the output log *)

Module Inv.

(** The messages written so far; none on a port that is not open. *)
Definition log (b : Base.t) : list Base.short := default [] (Base.midi_out b).

(** A message whose two data bytes are seven-bit values. *)
Definition data_ok (m : Base.short) : Prop :=
  (0 <= m.1.2 <= 127)%Z /\ (0 <= m.2 <= 127)%Z.

(** [b'] is [b] after some more well-formed writes. *)
Definition extends (b b' : Base.t) : Prop :=
  Base.midi_channel b' = Base.midi_channel b
  /\ (is_Some (Base.midi_out b') <-> is_Some (Base.midi_out b))
  /\ exists msgs, log b' = log b ++ msgs /\ Forall data_ok msgs.

Definition gravity (s : Gravity.t) : Prop :=
  List.length (Gravity.controllers s) = 3%nat
  /\ Forall (fun c => 0 <= Gravity.value c <= 127) (Gravity.controllers s)
  /\ 0 <= Gravity.gravity_strength s <= 1
  /\ (forall i, Gravity.dragging_controller s = Some i -> (i < 3)%nat).

Definition particle (s : Particle.t) : Prop :=
  0 <= Particle.temperature s <= 1.

Definition pendulum (s : Pendulum.t) : Prop :=
  Pendulum.length_ok s
  /\ (Pendulum.current_mode s = 0 \/ Pendulum.current_mode s = 1)%Z
  /\ (List.length (Pendulum.trail_points s) <= Pendulum.max_trail_length)%nat.

End Inv.

(** * Properties *)

(** ** Numeric helpers *)

Ltac case_decide_R :=
  repeat match goal with
         | |- context [decide ?P] => destruct (decide P)
         | H : context [decide ?P] |- _ => destruct (decide P)
         end.

Ltac split_R :=
  unfold Py.clamp, Rmax, Rmin, Rabs in *;
  repeat match goal with
         | |- context [Rle_dec ?a ?b] => destruct (Rle_dec a b)
         | |- context [Rcase_abs ?a] => destruct (Rcase_abs a)
         | H : context [Rle_dec ?a ?b] |- _ => destruct (Rle_dec a b)
         | H : context [Rcase_abs ?a] |- _ => destruct (Rcase_abs a)
         end.

Lemma clamp_bounds (lo hi x : R) : lo <= hi -> lo <= Py.clamp lo hi x <= hi.
Proof. intros. split_R; lra. Qed.

Lemma clamp_id (lo hi x : R) : lo <= x <= hi -> Py.clamp lo hi x = x.
Proof. intros. split_R; lra. Qed.

Lemma clampZ_bounds (lo hi x : Z) : (lo <= hi)%Z -> (lo <= Py.clampZ lo hi x <= hi)%Z.
Proof. unfold Py.clampZ. lia. Qed.

(** ** Gravity module: the tick *)

Section gravity_tick.

Import Gravity.

Lemma get_gravity_force_eq (s : t) :
  get_gravity_force s = gravity_strength s ^ 2 * 0.8.
Proof.
  unfold get_gravity_force. destruct (decide _) as [->|]; lra.
Qed.

Lemma get_gravity_force_pos (s : t) :
  0 <= gravity_strength s -> (get_gravity_force s > 0 <-> gravity_strength s > 0).
Proof.
  intros Hg. rewrite get_gravity_force_eq. split; intros H; nra.
Qed.

Lemma update_controller_outside (gf : R) (b : Base.t) (c : controller) :
  Rabs (value c - 64) > 0.1 ->
  (update_controller gf b c).2
  = let velocity2 := (velocity c + - (value c - 64) * gf * 0.1) * 0.98 in
    mk_controller (cc c) (Py.clamp 0 127 (value c + velocity2)) velocity2 (name c).
Proof. intros H. unfold update_controller. rewrite decide_True by exact H. reflexivity. Qed.

(** The controller computed by the loop body does not depend on the port. *)
Lemma update_controller_port (gf : R) (b b' : Base.t) (c : controller) :
  (update_controller gf b c).2 = (update_controller gf b' c).2.
Proof. unfold update_controller. case_decide_R; reflexivity. Qed.

Lemma update_controllers_map (gf : R) (b b0 : Base.t) (cs : list controller) :
  (update_controllers gf b cs).2 = map (fun c => (update_controller gf b0 c).2) cs.
Proof.
  revert b. induction cs as [|c cs IH]; intros b; simpl; [reflexivity|].
  destruct (update_controller gf b c) as [b1 c1] eqn:E1.
  specialize (IH b1).
  destruct (update_controllers gf b1 cs) as [b2 cs1]. simpl in *.
  rewrite <- IH. f_equal.
  rewrite (update_controller_port gf b0 b), E1. reflexivity.
Qed.

Lemma update_controllers_of (s : t) :
  controllers (update s)
  = map (fun c => (update_controller (get_gravity_force s) Base.init c).2)
      (controllers s).
Proof.
  unfold update.
  rewrite <- (update_controllers_map _ (base s)).
  destruct (update_controllers _ _ _); reflexivity.
Qed.

Lemma update_frame (s : t) :
  gravity_strength (update s) = gravity_strength s
  /\ dragging_controller (update s) = dragging_controller s
  /\ dragging_gravity (update s) = dragging_gravity s
  /\ mouse_offset (update s) = mouse_offset s.
Proof. unfold update. destruct (update_controllers _ _ _); auto. Qed.

Lemma update_controller_spec (s : t) (b : Base.t) (c : controller) :
  0 <= gravity_strength s ->
  (update_controller (get_gravity_force s) b c).2
  = Spec.spring_tick_amended (gravity_strength s) c.
Proof.
  intros Hg. unfold update_controller, Spec.spring_tick_amended, Spec.spring_integrate.
  pose proof (get_gravity_force_pos s Hg) as Hpos.
  rewrite get_gravity_force_eq in *.
  case_decide_R; simpl; try reflexivity; tauto.
Qed.

(** Zero gravity, outside the deadzone: the integrate branch runs with no
    force.  A channel at rest within [0,127] stays where it is; one that
    still has velocity keeps moving, the velocity decaying by 0.98. *)
Lemma zero_gravity_at_rest (s : t) (b : Base.t) (c : controller) :
  gravity_strength s = 0 ->
  velocity c = 0 ->
  0 <= value c <= 127 ->
  (update_controller (get_gravity_force s) b c).2 = c.
Proof.
  intros Hg Hv Hr. unfold update_controller, get_gravity_force.
  rewrite (decide_True _ _ Hg).
  destruct c as [k x v nm]. simpl in *. subst v.
  destruct (decide _); [|rewrite decide_False by lra; reflexivity].
  simpl. f_equal; [rewrite clamp_id; lra|lra].
Qed.

Lemma zero_gravity_drifts (s : t) (b : Base.t) :
  gravity_strength s = 0 ->
  (update_controller (get_gravity_force s) b (mk_controller 74 100 (-1) "Controller 1")).2
  = mk_controller 74 (99 + 2 / 100) (-98 / 100) "Controller 1".
Proof.
  intros Hg. rewrite update_controller_outside by (simpl; split_R; lra).
  unfold get_gravity_force. rewrite (decide_True _ _ Hg). simpl.
  rewrite clamp_id by lra. f_equal; lra.
Qed.

(** C2 as stated fails.  Gravity strength 0, the first controller at value
    100 with velocity -1 (a slider still falling when the gravity slider is
    dragged to 0): the tick takes it to 99.02 with velocity -0.98, where the
    specification's tick leaves it undisturbed. *)
Lemma zero_gravity_tick_disturbs :
  let s := {| base := Base.init;
              controllers :=
                [ mk_controller 74 100 (-1) "Controller 1";
                  mk_controller 75 64 0 "Controller 2";
                  mk_controller 76 64 0 "Controller 3" ];
              gravity_strength := 0;
              dragging_controller := None;
              dragging_gravity := false;
              mouse_offset := 0 |} in
  0 <= gravity_strength s <= 1
  /\ controllers (update s) !! 0%nat
     = Some (mk_controller 74 (99 + 2 / 100) (-98 / 100) "Controller 1")
  /\ map (Spec.spring_tick (gravity_strength s)) (controllers s) !! 0%nat
     = Some (mk_controller 74 100 (-1) "Controller 1")
  /\ controllers (update s)
     <> map (Spec.spring_tick (gravity_strength s)) (controllers s).
Proof.
  intros s.
  assert (Hu : controllers (update s) !! 0%nat
               = Some (mk_controller 74 (99 + 2 / 100) (-98 / 100) "Controller 1")).
  { rewrite update_controllers_of. simpl. f_equal.
    apply (zero_gravity_drifts s Base.init). reflexivity. }
  assert (Hs : map (Spec.spring_tick (gravity_strength s)) (controllers s) !! 0%nat
               = Some (mk_controller 74 100 (-1) "Controller 1")).
  { simpl. f_equal. unfold Spec.spring_tick. rewrite decide_True by reflexivity.
    reflexivity. }
  split; [simpl; lra|]. split; [exact Hu|]. split; [exact Hs|].
  intros Heq. rewrite Heq, Hs in Hu. injection Hu as Hv _. lra.
Qed.

Lemma spring_integrate_at_rest (c : controller) :
  velocity c = 0 ->
  0 <= value c <= 127 ->
  Spec.spring_integrate 0 c = c.
Proof.
  intros Hv Hr. unfold Spec.spring_integrate.
  destruct c as [k x v nm]. simpl in *. subst v.
  f_equal; [rewrite clamp_id; lra|lra].
Qed.

(** C2, amended.  For a gravity strength [g] in [0,1], one [update] maps
    every controller as follows and changes nothing else of the module
    state: outside the deadzone the velocity gains
    [-(value-64) * (g^2*0.8) * 0.1], is damped by 0.98 and is added to the
    value, which is then clamped to [0,127]; inside the deadzone the channel
    snaps to (64, 0) when g > 0 and is left as it is when g = 0.  At g = 0
    the tick leaves a channel undisturbed when it is inside the deadzone or
    at rest (velocity 0, value in [0,127]); a channel outside the deadzone
    that still has velocity goes through the integration step with no
    force. *)
Theorem gravity_update_is_amended_tick (s : t) :
  0 <= gravity_strength s <= 1 ->
  controllers (update s)
  = map (Spec.spring_tick_amended (gravity_strength s)) (controllers s)
  /\ gravity_strength (update s) = gravity_strength s
  /\ dragging_controller (update s) = dragging_controller s
  /\ dragging_gravity (update s) = dragging_gravity s
  /\ mouse_offset (update s) = mouse_offset s
  /\ (gravity_strength s = 0 ->
      forall c,
        Rabs (value c - 64) <= 0.1 \/ (velocity c = 0 /\ 0 <= value c <= 127) ->
        Spec.spring_tick_amended (gravity_strength s) c = c).
Proof.
  intros [Hg _].
  destruct (update_frame s) as (H1 & H2 & H3 & H4).
  split; [|auto 10].
  - rewrite update_controllers_of. apply map_ext.
    intros c. apply update_controller_spec, Hg.
  - split; [exact H1|]. split; [exact H2|]. split; [exact H3|]. split; [exact H4|].
    intros -> c Hc. unfold Spec.spring_tick_amended.
    destruct (decide (Rabs (value c - 64) > 0.1)) as [Hout|Hin].
    + destruct Hc as [Hc|[Hv Hr]]; [lra|]. apply spring_integrate_at_rest; assumption.
    + rewrite decide_False by lra. reflexivity.
Qed.

End gravity_tick.

(** ** Gravity module: direct manipulation *)

Section gravity_drag.

Import Gravity.

Lemma slider_hit_unique (i j : nat) (mouse_x mouse_y : Z) :
  slider_hit i mouse_x mouse_y = true -> slider_hit j mouse_x mouse_y = true -> i = j.
Proof.
  unfold slider_hit, Base.collidepoint, controller_start_x, controller_spacing,
    controller_width.
  rewrite !andb_true_iff, !bool_decide_eq_true. lia.
Qed.

Lemma slider_hit_not_gravity (i : nat) (mouse_x mouse_y : Z) :
  (i < 3)%nat -> slider_hit i mouse_x mouse_y = true ->
  Base.collidepoint gravity_slider_x gravity_slider_y
    gravity_slider_width gravity_slider_height mouse_x mouse_y = false.
Proof.
  unfold slider_hit, Base.collidepoint, controller_start_x, controller_spacing,
    controller_width, gravity_slider_x, gravity_slider_width.
  rewrite !andb_true_iff, !bool_decide_eq_true. intros Hi [Hx _].
  apply andb_false_iff. left. apply bool_decide_eq_false. lia.
Qed.

Lemma press_controllers_hit (k j : nat) (cs : list controller) (c : controller)
  (mouse_x mouse_y : Z) (s : t) :
  cs !! j = Some c ->
  slider_hit (k + j) mouse_x mouse_y = true ->
  press_controllers k cs mouse_x mouse_y s
  = {| base := base s; controllers := controllers s;
       gravity_strength := gravity_strength s;
       dragging_controller := Some (k + j)%nat;
       dragging_gravity := dragging_gravity s;
       mouse_offset := IZR mouse_y - handle_y c |}.
Proof.
  revert k j. induction cs as [|c0 cs IH]; intros k j Hj Hhit; [done|].
  simpl. destruct j as [|j].
  - simpl in Hj. injection Hj as ->. rewrite Nat.add_0_r in *.
    rewrite Hhit. reflexivity.
  - destruct (slider_hit k mouse_x mouse_y) eqn:Hk.
    + pose proof (slider_hit_unique _ _ _ _ Hk Hhit). lia.
    + simpl in Hj. replace (k + S j)%nat with (S k + j)%nat in * by lia.
      apply IH; assumption.
Qed.

Lemma press_on_slider (s : t) (i : nat) (c : controller) (mouse_x mouse_y : Z) :
  (i < 3)%nat ->
  controllers s !! i = Some c ->
  slider_hit i mouse_x mouse_y = true ->
  handle_mouse_events s (Base.MOUSEBUTTONDOWN 1) mouse_x mouse_y
  = Some {| base := base s; controllers := controllers s;
            gravity_strength := gravity_strength s;
            dragging_controller := Some i;
            dragging_gravity := dragging_gravity s;
            mouse_offset := IZR mouse_y - handle_y c |}.
Proof.
  intros Hi Hc Hhit. unfold handle_mouse_events.
  rewrite decide_True by reflexivity.
  rewrite (press_controllers_hit 0 i _ c) by assumption.
  unfold press_gravity. rewrite (slider_hit_not_gravity i) by assumption.
  reflexivity.
Qed.

Lemma ticks_frame (n : nat) (s : t) :
  gravity_strength (ticks n s) = gravity_strength s
  /\ dragging_controller (ticks n s) = dragging_controller s
  /\ dragging_gravity (ticks n s) = dragging_gravity s
  /\ mouse_offset (ticks n s) = mouse_offset s
  /\ List.length (controllers (ticks n s)) = List.length (controllers s).
Proof.
  induction n as [|n IH]; [done|].
  unfold ticks in *. simpl.
  destruct (update_frame (Nat.iter n update s)) as (-> & -> & -> & ->).
  rewrite update_controllers_of, length_map. exact IH.
Qed.

Lemma drag_value (mouse_y : Z) (c : controller) :
  0 <= value c <= 127 ->
  Py.clamp 0 1 (1 - (IZR mouse_y - (IZR mouse_y - handle_y c) - IZR controller_y)
                    / IZR controller_height) * 127
  = value c.
Proof.
  intros Hv. unfold handle_y, controller_y, controller_height.
  rewrite clamp_id; lra.
Qed.

(** Drag continuity over exact real arithmetic.  A left press inside slider
    [i] grabs that slider, leaves every controller as it is and records the
    offset between the pointer and the slider's handle; a later drag event
    with the pointer at the same height, after any number [n] of frames
    without events, writes the value the controller had at press time back
    into it (with velocity 0), when every operation is the exact one.  The
    controller's value is assumed to lie in [0,127], as every value the
    module writes does.  In binary64 the value does not always come back:
    see [drag_round_trip_binary64]. *)
Theorem drag_continuity (s : t) (i : nat) (c : controller) (mouse_x mouse_y : Z)
  (n : nat) :
  List.length (controllers s) = 3%nat ->
  controllers s !! i = Some c ->
  0 <= value c <= 127 ->
  slider_hit i mouse_x mouse_y = true ->
  exists s1 s2 c2,
    handle_mouse_events s (Base.MOUSEBUTTONDOWN 1) mouse_x mouse_y = Some s1
    /\ controllers s1 = controllers s
    /\ dragging_controller s1 = Some i
    /\ mouse_offset s1 = IZR mouse_y - handle_y c
    /\ handle_mouse_events (ticks n s1) Base.MOUSEMOTION mouse_x mouse_y = Some s2
    /\ controllers s2 !! i = Some c2
    /\ value c2 = value c
    /\ velocity c2 = 0.
Proof.
  intros Hlen Hc Hv Hhit.
  assert (Hi : (i < 3)%nat) by (rewrite <- Hlen; eapply lookup_lt_Some; eauto).
  pose proof (press_on_slider s i c mouse_x mouse_y Hi Hc Hhit) as Hpress.
  set (s1 := mk _ _ _ _ _ _) in Hpress.
  assert (Hcs : controllers s1 = controllers s) by reflexivity.
  assert (Hdc : dragging_controller s1 = Some i) by reflexivity.
  assert (Hmo : mouse_offset s1 = IZR mouse_y - handle_y c) by reflexivity.
  clearbody s1.
  destruct (ticks_frame n s1) as (_ & Hd & _ & Ho & Hl).
  rewrite Hdc in Hd. rewrite Hmo in Ho. rewrite Hcs, Hlen in Hl.
  destruct (lookup_lt_is_Some_2 (controllers (ticks n s1)) i) as [c' Hc'];
    [lia|].
  exists s1; eexists _, _.
  split; [exact Hpress|]. split; [exact Hcs|]. split; [exact Hdc|].
  split; [exact Hmo|]. split.
  { unfold handle_mouse_events. rewrite Hd, Ho, Hc'. reflexivity. }
  simpl. rewrite list_lookup_insert_eq by lia.
  split; [reflexivity|]. simpl. split; [|reflexivity].
  apply drag_value, Hv.
Qed.

End gravity_drag.

Section gravity_drag_binary64.

Import PrimFloat.

(** C8, in binary64.  The slider at rest, value 64, is pressed with the
    pointer at height 350 and a drag event arrives at the same height: the
    value written back is not 64 but lies below it and not below 63 (it is
    63.999999999999986), so that [send_cc], which truncates, sends CC 63
    for a channel that held 64.  Of the 128 integer values 0..127 of a
    slider, 79 do not come back from this round trip and 42 come back
    lower. *)
Theorem drag_round_trip_binary64 :
  let v := Binary64.round_trip 350 64 in
  eqb v 64 = false
  /\ leb 63 v = true
  /\ ltb v 64 = true
  /\ List.length (Binary64.changed 350) = 79%nat
  /\ List.length (Binary64.lowered 350) = 42%nat.
Proof. cbv zeta. repeat split; vm_compute; reflexivity. Qed.

End gravity_drag_binary64.

Section gravity_held.

Import Gravity.

Lemma motion_on_dragged (s : t) (i : nat) (c : controller) (mouse_x mouse_y : Z) :
  dragging_controller s = Some i ->
  controllers s !! i = Some c ->
  handle_mouse_events s Base.MOUSEMOTION mouse_x mouse_y
  = let value1 :=
      Py.clamp 0 1 (1 - (IZR mouse_y - mouse_offset s - IZR controller_y)
                        / IZR controller_height) * 127 in
    Some {| base := Base.send_cc (base s) (cc c) value1;
            controllers := <[i := mk_controller (cc c) value1 0 (name c)]> (controllers s);
            gravity_strength := gravity_strength s;
            dragging_controller := dragging_controller s;
            dragging_gravity := dragging_gravity s;
            mouse_offset := mouse_offset s |}.
Proof. intros Hd Hc. unfold handle_mouse_events. rewrite Hd, Hc. reflexivity. Qed.

(** A left press never writes to a controller: neither value nor velocity
    changes at press time. *)
Lemma press_keeps_controllers (s s1 : t) (button mouse_x mouse_y : Z) :
  handle_mouse_events s (Base.MOUSEBUTTONDOWN button) mouse_x mouse_y = Some s1 ->
  controllers s1 = controllers s.
Proof.
  unfold handle_mouse_events. destruct (decide _); intros [= <-]; [|reflexivity].
  unfold press_gravity.
  assert (H : forall k cs, controllers (press_controllers k cs mouse_x mouse_y s)
                           = controllers s).
  { intros k cs. revert k. induction cs as [|c cs IH]; intros k; simpl; [reflexivity|].
    destruct (slider_hit _ _ _); [reflexivity|apply IH]. }
  destruct (Base.collidepoint _ _ _ _ _ _); simpl; apply H.
Qed.

(** C1, gravity module.  From the initial state (gravity strength 0.5):
    press on slider 0 at (140, 350), drag to (140, 250).  Controller 0 is
    now held with value 319/3 and velocity 0.  The next [update] runs the
    integrator on it all the same: the value drops to 791277/7500 and the
    velocity becomes -6223/7500, while the slider is still being dragged.
    After a release, a new press on the slider grabs the controller again
    and leaves that velocity in place. *)
Theorem gravity_update_integrates_held_controller :
  exists s1 s2 s3 s4 c2 c3 c4,
    handle_mouse_events init (Base.MOUSEBUTTONDOWN 1) 140 350 = Some s1
    /\ handle_mouse_events s1 Base.MOUSEMOTION 140 250 = Some s2
    /\ dragging_controller s2 = Some 0%nat
    /\ controllers s2 !! 0%nat = Some c2
    /\ value c2 = 319 / 3 /\ velocity c2 = 0
    /\ dragging_controller (update s2) = Some 0%nat
    /\ controllers (update s2) !! 0%nat = Some c3
    /\ value c3 = 791277 / 7500 /\ value c3 <> value c2
    /\ velocity c3 = - 6223 / 7500
    /\ handle_mouse_events (update s2) (Base.MOUSEBUTTONUP 1) 140 250 = Some s3
    /\ dragging_controller s3 = None
    /\ handle_mouse_events s3 (Base.MOUSEBUTTONDOWN 1) 140 250 = Some s4
    /\ dragging_controller s4 = Some 0%nat
    /\ controllers s4 !! 0%nat = Some c4
    /\ velocity c4 <> 0.
Proof.
  set (c0 := mk_controller 74 64 0 "Controller 1").
  assert (Hv2 : Py.clamp 0 1 (1 - (IZR 250 - (IZR 350 - handle_y c0) - IZR controller_y)
                                  / IZR controller_height) * 127 = 319 / 3).
  { unfold handle_y, controller_y, controller_height, c0. simpl value.
    rewrite clamp_id; lra. }
  pose proof (press_on_slider init 0 c0 140 350) as Hpress.
  specialize (Hpress ltac:(lia) eq_refl eq_refl).
  set (s1 := mk _ _ _ _ _ _) in Hpress.
  pose proof (motion_on_dragged s1 0 c0 140 250 eq_refl eq_refl) as Hmotion.
  cbv zeta in Hmotion. simpl mouse_offset in Hmotion. rewrite Hv2 in Hmotion.
  set (s2 := mk _ _ _ _ _ _) in Hmotion.
  set (c2 := mk_controller 74 (319 / 3) 0 "Controller 1").
  assert (Hc2 : controllers s2 !! 0%nat = Some c2) by reflexivity.
  assert (Hc3 : (update_controller (get_gravity_force s2) Base.init c2).2
                = mk_controller 74 (791277 / 7500) (- 6223 / 7500) "Controller 1").
  { rewrite update_controller_outside by (simpl; split_R; lra).
    rewrite get_gravity_force_eq. simpl.
    rewrite clamp_id by lra. f_equal; lra. }
  set (c3 := mk_controller 74 (791277 / 7500) (- 6223 / 7500) "Controller 1") in *.
  assert (Hu : controllers (update s2) !! 0%nat = Some c3).
  { rewrite update_controllers_of, list_lookup_fmap, Hc2. simpl. rewrite Hc3.
    reflexivity. }
  destruct (update_frame s2) as (_ & Hd & _ & _).
  set (s3 := {| base := base (update s2); controllers := controllers (update s2);
                gravity_strength := gravity_strength (update s2);
                dragging_controller := None; dragging_gravity := false;
                mouse_offset := mouse_offset (update s2) |}).
  pose proof (press_on_slider s3 0 c3 140 250 ltac:(lia) Hu eq_refl) as Hpress2.
  set (s4 := mk _ _ _ _ _ _) in Hpress2.
  exists s1, s2, s3, s4, c2, c3, c3.
  repeat apply conj; try reflexivity; try assumption; simpl; lra.
Qed.

End gravity_held.

(** ** Pendulum module: held mode and the tick *)

Section pendulum_tick.

Import Pendulum.

(** The bob's hit test of the MOUSEBUTTONDOWN branch. *)
Lemma press_bob_hit (mouse_x mouse_y : Z) (s : t) :
  sqrt ((IZR mouse_x - (calculate_pendulum_position s).1) ^ 2
        + (IZR mouse_y - (calculate_pendulum_position s).2) ^ 2)
  < IZR (bob_radius * 2) ->
  dragging_pendulum (press_bob mouse_x mouse_y s) = true
  /\ angular_velocity (press_bob mouse_x mouse_y s) = 0
  /\ angle (press_bob mouse_x mouse_y s) = angle s.
Proof.
  intros H. unfold press_bob. simpl in *.
  rewrite decide_True by exact H. auto.
Qed.

Lemma press_length_bob (mouse_x mouse_y : Z) (s : t) :
  calculate_pendulum_position (press_length mouse_x mouse_y s)
  = calculate_pendulum_position s.
Proof. unfold press_length. destruct (Base.collidepoint _ _ _ _ _ _); reflexivity. Qed.

Lemma press_mode_bob (mouse_x mouse_y : Z) (s : t) :
  calculate_pendulum_position (press_mode mouse_x mouse_y s)
  = calculate_pendulum_position s.
Proof. unfold press_mode. destruct (Base.collidepoint _ _ _ _ _ _); reflexivity. Qed.

(** Pendulum, transition into held mode: a left press on the bob stops the
    motion at press time and leaves the angle alone. *)
Lemma pendulum_press_zeroes_velocity (s : t) (mouse_x mouse_y : Z) :
  sqrt ((IZR mouse_x - (calculate_pendulum_position s).1) ^ 2
        + (IZR mouse_y - (calculate_pendulum_position s).2) ^ 2)
  < IZR (bob_radius * 2) ->
  let s1 := handle_mouse_events s (Base.MOUSEBUTTONDOWN 1) mouse_x mouse_y in
  dragging_pendulum s1 = true /\ angular_velocity s1 = 0 /\ angle s1 = angle s.
Proof.
  intros H. unfold handle_mouse_events. rewrite decide_True by reflexivity.
  cbv zeta.
  set (s' := press_mode _ _ _).
  assert (Hpos : calculate_pendulum_position s' = calculate_pendulum_position s)
    by (unfold s'; rewrite press_mode_bob, press_length_bob; reflexivity).
  assert (Ha : angle s' = angle s).
  { unfold s', press_mode, press_length.
    repeat destruct (Base.collidepoint _ _ _ _ _ _); reflexivity. }
  rewrite <- Hpos in H. destruct (press_bob_hit _ _ _ H) as (? & ? & ?).
  repeat split; congruence.
Qed.

Lemma generate_midi_output_frame (s s1 : t) :
  generate_midi_output s = Some s1 ->
  length s1 = length s /\ angle s1 = angle s
  /\ angular_velocity s1 = angular_velocity s
  /\ trail_points s1 = trail_points s
  /\ current_mode s1 = current_mode s
  /\ dragging_pendulum s1 = dragging_pendulum s
  /\ dragging_length s1 = dragging_length s.
Proof.
  unfold generate_midi_output. simpl.
  destruct (decide _); [|destruct (decide _)].
  - destruct (cc_value _ _); intros [= <-]. simpl. auto 10.
  - destruct (pitch_value _ _); intros [= <-]. simpl. auto 10.
  - intros [= <-]. auto 10.
Qed.

(** Pendulum, held mode: while the bob is dragged, [update] skips the
    integrator; angle and angular velocity come out as they went in. *)
Lemma pendulum_update_held (s s1 : t) :
  dragging_pendulum s = true ->
  update s = Some s1 ->
  angle s1 = angle s /\ angular_velocity s1 = angular_velocity s
  /\ trail_points s1 = trail_points s.
Proof.
  intros Hd. unfold update. rewrite Hd. simpl.
  intros H%generate_midi_output_frame. tauto.
Qed.

Lemma update_physics_eq (s : t) :
  length s <> 0 ->
  exists s1, update_physics s = Some s1
    /\ angular_velocity s1
       = (angular_velocity s + - (gravity / length s) * sin (angle s) * 0.1) * 0.999
    /\ angle s1 = angle s + angular_velocity s1
    /\ length s1 = length s
    /\ current_mode s1 = current_mode s
    /\ cc_number s1 = cc_number s
    /\ base s1 = base s.
Proof.
  intros HL. unfold update_physics, Py.div.
  rewrite decide_False by exact HL. simpl.
  eexists. split; [reflexivity|]. simpl. unfold damping. auto 10.
Qed.

Lemma generate_midi_output_eq (s : t) :
  length s <> 0 ->
  let bob_x := IZR pivot_x + length s * sin (angle s) in
  exists b,
    generate_midi_output s = Some (set_base s b)
    /\ (current_mode s = 0%Z ->
        exists v, cc_value (length s) bob_x = Some v
                  /\ b = Base.send_cc (base s) (cc_number s) (IZR v))
    /\ (current_mode s = 1%Z ->
        exists v, pitch_value (length s) bob_x = Some v
                  /\ b = Base.send_pitch_bend (base s) v)
    /\ (current_mode s <> 0%Z -> current_mode s <> 1%Z -> b = base s).
Proof.
  intros HL bob_x. unfold generate_midi_output. simpl. fold bob_x.
  assert (HL2 : length s * 2 <> 0) by lra.
  destruct (decide (current_mode s = 0%Z)) as [H0|H0];
    [|destruct (decide (current_mode s = 1%Z)) as [H1|H1]].
  - unfold cc_value, Py.div. rewrite decide_False by exact HL2. simpl.
    eexists. split; [reflexivity|]. repeat split; [eauto|lia|lia].
  - unfold pitch_value, Py.div. rewrite decide_False by exact HL. simpl.
    eexists. split; [reflexivity|]. repeat split; [lia|eauto|lia].
  - exists (base s). split; [destruct s; reflexivity|]. repeat split; lia || auto.
Qed.

(** C7. A tick of a pendulum that is not held (the arm length is never
    zero: the length slider keeps it within [min_length, max_length]):
    the angular velocity gains [-(gravity/length) * sin(angle) * 0.1] and is
    damped by 0.999, the angle gains the new angular velocity, and the value
    sent out is computed from the bob abscissa
    [pivot_x + length * sin(angle)] of the state just reached; the bob
    position is the function [calculate_pendulum_position] of length and
    angle. *)
Theorem pendulum_update_free (s : t) :
  dragging_pendulum s = false ->
  length s <> 0 ->
  exists s1,
    update s = Some s1
    /\ angular_velocity s1
       = (angular_velocity s + - (gravity / length s) * sin (angle s) * 0.1) * 0.999
    /\ angle s1 = angle s + angular_velocity s1
    /\ length s1 = length s
    /\ calculate_pendulum_position s1
       = (IZR pivot_x + length s1 * sin (angle s1),
          IZR pivot_y + length s1 * cos (angle s1))
    /\ (current_mode s = 0%Z ->
        exists v, cc_value (length s1) (calculate_pendulum_position s1).1 = Some v
                  /\ base s1 = Base.send_cc (base s) (cc_number s) (IZR v))
    /\ (current_mode s = 1%Z ->
        exists v, pitch_value (length s1) (calculate_pendulum_position s1).1 = Some v
                  /\ base s1 = Base.send_pitch_bend (base s) v).
Proof.
  intros Hd HL. unfold update. rewrite Hd.
  destruct (update_physics_eq s HL) as (sp & -> & Hav & Han & Hlen & Hm & Hcc & Hb).
  simpl.
  assert (HLp : length sp <> 0) by (rewrite Hlen; exact HL).
  destruct (generate_midi_output_eq sp HLp) as (b & -> & Hcv & Hpv & _).
  rewrite Hm, Hcc, Hb in *.
  eexists. split; [reflexivity|]. simpl.
  repeat split; assumption.
Qed.

End pendulum_tick.

(** ** Output mapping *)

Section output_mapping.

(** [Py.int] is truncation toward zero. *)
Lemma int_nonneg (x : R) : 0 <= x -> IZR (Py.int x) <= x < IZR (Py.int x) + 1.
Proof.
  intros Hx. unfold Py.int. rewrite decide_True by exact Hx.
  destruct (base_Int_part x). lra.
Qed.

Lemma int_neg (x : R) : x < 0 -> x <= IZR (Py.int x) < x + 1.
Proof.
  intros Hx. unfold Py.int. rewrite decide_False by lra.
  rewrite opp_IZR. destruct (base_Int_part (- x)). lra.
Qed.

Lemma int_eq_nonneg (x : R) (z : Z) : 0 <= x -> IZR z <= x < IZR z + 1 -> Py.int x = z.
Proof.
  intros Hx Hz. unfold Py.int. rewrite decide_True by exact Hx.
  symmetry. apply Int_part_spec. lra.
Qed.

Lemma round_eq (x : R) (z : Z) : IZR z - 1 / 2 <= x < IZR z + 1 / 2 -> Spec.round x = z.
Proof. intros Hz. unfold Spec.round. symmetry. apply Int_part_spec. lra. Qed.

Lemma cc_value_some (length bob_x : R) :
  length <> 0 ->
  Pendulum.cc_value length bob_x
  = Some (Py.clampZ 0 127
            (Py.int ((bob_x - (IZR Pendulum.pivot_x - length)) / (length * 2) * 127))).
Proof.
  intros HL. unfold Pendulum.cc_value, Py.div.
  rewrite decide_False by lra. reflexivity.
Qed.

Lemma pitch_value_some (length bob_x : R) :
  length <> 0 ->
  Pendulum.pitch_value length bob_x
  = Some (Py.clampZ (-8192) 8191
            (Py.int ((bob_x - IZR Pendulum.pivot_x) / length * 8192))).
Proof.
  intros HL. unfold Pendulum.pitch_value, Py.div.
  rewrite decide_False by exact HL. reflexivity.
Qed.

(** With a zero arm length both pendulum branches would raise. *)
Lemma zero_length_raises (bob_x : R) :
  Pendulum.cc_value 0 bob_x = None /\ Pendulum.pitch_value 0 bob_x = None.
Proof.
  unfold Pendulum.cc_value, Pendulum.pitch_value, Py.div.
  rewrite !decide_True by lra. auto.
Qed.

(** C3. Whatever the position of a particle, the two values
    [send_particle_midi] sends lie in [0,127].  Whatever the bob position
    (hence whatever the angle) and the arm length, a value computed by the
    pendulum's MIDI CC branch lies in [0,127] and one computed by its
    pitch-bend branch in [-8192,8191]; both branches do compute a value as
    soon as the arm length is not zero. *)
Theorem midi_values_in_range :
  (forall p : Particle.particle,
      (0 <= Particle.x_midi p <= 127)%Z /\ (0 <= Particle.y_midi p <= 127)%Z)
  /\ (forall (length bob_x : R) (v : Z),
        Pendulum.cc_value length bob_x = Some v -> (0 <= v <= 127)%Z)
  /\ (forall (length bob_x : R) (v : Z),
        Pendulum.pitch_value length bob_x = Some v -> (-8192 <= v <= 8191)%Z)
  /\ (forall length bob_x : R,
        length <> 0 ->
        is_Some (Pendulum.cc_value length bob_x)
        /\ is_Some (Pendulum.pitch_value length bob_x)).
Proof.
  split; [|split; [|split]].
  - intros p. unfold Particle.x_midi, Particle.y_midi.
    split; apply clampZ_bounds; lia.
  - intros length bob_x v. unfold Pendulum.cc_value, Py.div.
    destruct (decide _); [discriminate|]. intros [= <-].
    apply clampZ_bounds. lia.
  - intros length bob_x v. unfold Pendulum.pitch_value, Py.div.
    destruct (decide _); [discriminate|]. intros [= <-].
    apply clampZ_bounds. lia.
  - intros length bob_x HL.
    rewrite cc_value_some, pitch_value_some by exact HL. split; eexists; reflexivity.
Qed.

(** C4 as stated fails: a particle at x = 100 in the 400 wide arena is at
    31.75 on the 0..127 scale; the code sends 31, rounding to nearest
    gives 32. *)
Lemma x_midi_is_not_rounded :
  let p := Particle.mk_particle 100 300 0 0 15 74 75 in
  Particle.x_midi p = 31%Z
  /\ Spec.toControlValue (Particle.x p) 0 (IZR Particle.sim_width) = 32%Z
  /\ Particle.x_midi p <> Spec.toControlValue (Particle.x p) 0 (IZR Particle.sim_width).
Proof.
  cbv zeta.
  assert (H1 : Particle.x_midi (Particle.mk_particle 100 300 0 0 15 74 75) = 31%Z).
  { unfold Particle.x_midi, Particle.sim_width. simpl Particle.x.
    rewrite (int_eq_nonneg _ 31) by lra. reflexivity. }
  assert (H2 : Spec.toControlValue 100 0 (IZR Particle.sim_width) = 32%Z).
  { unfold Spec.toControlValue, Particle.sim_width.
    rewrite (round_eq _ 32) by lra. reflexivity. }
  simpl Particle.x. rewrite H1, H2. repeat split. discriminate.
Qed.

(** C4, amended.  Both mappings truncate toward zero and then clamp: the
    particle axes map over the domain [0, sim_width] (resp. sim_height), the
    pendulum's CC branch over [pivot_x - length, pivot_x + length], and its
    pitch-bend branch maps the bob offset normalised by the arm length. *)
Theorem midi_values_truncate :
  (forall p : Particle.particle,
      Particle.x_midi p
      = Spec.toControlValue_trunc (Particle.x p) 0 (IZR Particle.sim_width)
      /\ Particle.y_midi p
         = Spec.toControlValue_trunc (Particle.y p) 0 (IZR Particle.sim_height))
  /\ (forall length bob_x : R,
        length <> 0 ->
        Pendulum.cc_value length bob_x
        = Some (Spec.toControlValue_trunc bob_x
                  (IZR Pendulum.pivot_x - length) (IZR Pendulum.pivot_x + length))
        /\ Pendulum.pitch_value length bob_x
           = Some (Spec.toPitchBend_trunc ((bob_x - IZR Pendulum.pivot_x) / length))).
Proof.
  split.
  - intros p. unfold Particle.x_midi, Particle.y_midi, Spec.toControlValue_trunc.
    rewrite !Rminus_0_r. split; reflexivity.
  - intros length bob_x HL.
    rewrite cc_value_some, pitch_value_some by exact HL.
    unfold Spec.toControlValue_trunc, Spec.toPitchBend_trunc.
    split; [|reflexivity].
    replace (IZR Pendulum.pivot_x + length - (IZR Pendulum.pivot_x - length))
      with (length * 2) by lra.
    reflexivity.
Qed.

End output_mapping.

(** ** Particle module: walls and collisions *)

Section particle_physics.

Import Particle.

Lemma get_speed_multiplier_pos (temperature : R) :
  0 <= temperature <= 1 -> 1 <= get_speed_multiplier temperature <= 3.
Proof. unfold get_speed_multiplier, max_speed_multiplier. lra. Qed.

(** One axis, moved by [vel * m] with [m > 0].  A coordinate that was not
    beyond the near wall and is taken to or past it, or was not beyond the
    far wall and is taken to or past that one, is put on the wall with its
    velocity negated; a coordinate that ends strictly inside the band keeps
    its velocity. *)
Lemma bounce_crossing (pos vel radius bound m : R) :
  0 < m ->
  radius < bound - radius ->
  let moved := pos + vel * m in
  (radius <= pos -> moved <= radius ->
   bounce moved vel radius bound = (radius, - vel))
  /\ (pos <= bound - radius -> moved >= bound - radius ->
      bounce moved vel radius bound = (bound - radius, - vel))
  /\ (radius < moved < bound - radius -> bounce moved vel radius bound = (moved, vel)).
Proof.
  intros Hm Hband moved. unfold bounce. subst moved.
  split; [|split].
  - intros Hin H. rewrite decide_True by exact H. f_equal.
    assert (vel <= 0) by nra. split_R; lra.
  - intros Hin H. rewrite decide_False by lra. rewrite decide_True by exact H.
    f_equal. assert (0 <= vel) by nra. split_R; lra.
  - intros H. rewrite !decide_False by lra. reflexivity.
Qed.

Lemma update_particle_axes (temperature : R) (p : particle) :
  let m := get_speed_multiplier temperature in
  let q := update_particle temperature p in
  (x q, vx q) = bounce (x p + vx p * m) (vx p) (radius p) (IZR sim_width)
  /\ (y q, vy q) = bounce (y p + vy p * m) (vy p) (radius p) (IZR sim_height)
  /\ radius q = radius p.
Proof.
  cbv zeta. unfold update_particle.
  destruct (bounce _ (vx p) _ _), (bounce _ (vy p) _ _). auto.
Qed.

(** C6. Wall reflection.  For a temperature in [0,1] and a particle that fits
    in the arena, on each axis: when the coordinate was not beyond a wall's
    boundary value (radius on the near side, bound - radius on the far side)
    and the move takes it to or past that value, the coordinate is set to
    the boundary value and the velocity component on that axis changes sign,
    its magnitude kept; when the move ends strictly inside the band on an
    axis, that axis' velocity component is not touched.  So a particle that
    crosses on one axis only keeps its other velocity component. *)
Theorem wall_reflection (temperature : R) (p : particle) :
  0 <= temperature <= 1 ->
  radius p < IZR sim_width - radius p ->
  radius p < IZR sim_height - radius p ->
  let m := get_speed_multiplier temperature in
  let q := update_particle temperature p in
  ((radius p <= x p -> x p + vx p * m <= radius p ->
    x q = radius p /\ vx q = - vx p)
   /\ (x p <= IZR sim_width - radius p -> x p + vx p * m >= IZR sim_width - radius p ->
       x q = IZR sim_width - radius p /\ vx q = - vx p)
   /\ (radius p < x p + vx p * m < IZR sim_width - radius p ->
       x q = x p + vx p * m /\ vx q = vx p))
  /\ ((radius p <= y p -> y p + vy p * m <= radius p ->
       y q = radius p /\ vy q = - vy p)
      /\ (y p <= IZR sim_height - radius p ->
          y p + vy p * m >= IZR sim_height - radius p ->
          y q = IZR sim_height - radius p /\ vy q = - vy p)
      /\ (radius p < y p + vy p * m < IZR sim_height - radius p ->
          y q = y p + vy p * m /\ vy q = vy p)).
Proof.
  intros Ht Hw Hh m q.
  assert (Hm : 0 < m) by (pose proof (get_speed_multiplier_pos _ Ht); unfold m; lra).
  destruct (update_particle_axes temperature p) as (Hx & Hy & _).
  fold m q in Hx, Hy.
  split.
  - destruct (bounce_crossing (x p) (vx p) _ _ m Hm Hw) as (H1 & H2 & H3).
    split; [|split].
    + intros Hin Hmv. rewrite (H1 Hin Hmv) in Hx. injection Hx; auto.
    + intros Hin Hmv. rewrite (H2 Hin Hmv) in Hx. injection Hx; auto.
    + intros Hmv. rewrite (H3 Hmv) in Hx. injection Hx; auto.
  - destruct (bounce_crossing (y p) (vy p) _ _ m Hm Hh) as (H1 & H2 & H3).
    split; [|split].
    + intros Hin Hmv. rewrite (H1 Hin Hmv) in Hy. injection Hy; auto.
    + intros Hin Hmv. rewrite (H2 Hin Hmv) in Hy. injection Hy; auto.
    + intros Hmv. rewrite (H3 Hmv) in Hy. injection Hy; auto.
Qed.

(** Without a crossing there is no sign change: a particle that lies beyond
    the left boundary value and already moves inward keeps its velocity. *)
Lemma bounce_keeps_inward_velocity :
  bounce (10 + 2 * 1) 2 15 400 = (15, 2).
Proof.
  unfold bounce. rewrite decide_True by lra. f_equal. split_R; lra.
Qed.

(** The specification's example: left wall, velocity (-3, 1). *)
Lemma wall_reflection_example :
  let p := mk_particle 16 200 (-3) 1 15 74 75 in
  let q := update_particle 0 p in
  x q = 15 /\ y q = 201 /\ vx q = 3 /\ vy q = 1.
Proof.
  cbv zeta.
  destruct (update_particle_axes 0 (mk_particle 16 200 (-3) 1 15 74 75)) as (Hx & Hy & _).
  simpl in Hx, Hy. unfold get_speed_multiplier, max_speed_multiplier in *.
  unfold bounce, sim_width, sim_height in *.
  rewrite decide_True in Hx by lra.
  rewrite !decide_False in Hy by lra.
  injection Hx as -> ->. injection Hy as -> ->.
  split_R; repeat split; lra.
Qed.

(** The collision normal of two particles with distinct centers. *)
Lemma distance_zero_iff (dx dy : R) : sqrt (dx * dx + dy * dy) = 0 <-> dx = 0 /\ dy = 0.
Proof.
  split.
  - intros H. apply sqrt_eq_0 in H; [|nra]. split; nra.
  - intros [-> ->]. rewrite Rmult_0_l, Rplus_0_l. apply sqrt_0.
Qed.

Lemma normal_is_unit (dx dy : R) :
  let distance := sqrt (dx * dx + dy * dy) in
  distance <> 0 ->
  (dx / distance) * (dx / distance) + (dy / distance) * (dy / distance) = 1.
Proof.
  intros distance Hd.
  assert (Hsq : distance * distance = dx * dx + dy * dy) by (apply sqrt_sqrt; nra).
  field_simplify_eq; [|exact Hd]. lra.
Qed.

Lemma resolve_distinct (p1 p2 : particle) :
  x p1 <> x p2 \/ y p1 <> y p2 ->
  let n := collision_normal p1 p2 in
  let speed := normal_speed p1 p2 in
  let overlap := radius p1 + radius p2 - center_distance p1 p2 in
  resolve_particle_collision p1 p2
  = Some (if decide (speed > 0) then
            (mk_particle (x p1 + n.1 * overlap * 0.5) (y p1 + n.2 * overlap * 0.5)
               (vx p1) (vy p1) (radius p1) (cc_x p1) (cc_y p1),
             mk_particle (x p2 - n.1 * overlap * 0.5) (y p2 - n.2 * overlap * 0.5)
               (vx p2) (vy p2) (radius p2) (cc_x p2) (cc_y p2))
          else
            (mk_particle (x p1 + n.1 * overlap * 0.5) (y p1 + n.2 * overlap * 0.5)
               (vx p1 - speed * n.1) (vy p1 - speed * n.2)
               (radius p1) (cc_x p1) (cc_y p1),
             mk_particle (x p2 - n.1 * overlap * 0.5) (y p2 - n.2 * overlap * 0.5)
               (vx p2 + speed * n.1) (vy p2 + speed * n.2)
               (radius p2) (cc_x p2) (cc_y p2))).
Proof.
  intros Hne. cbv zeta.
  assert (Hd : center_distance p1 p2 <> 0).
  { unfold center_distance. rewrite distance_zero_iff. lra. }
  unfold resolve_particle_collision, normal_speed, collision_normal, Py.div.
  fold (center_distance p1 p2).
  rewrite !decide_False by exact Hd. simpl.
  destruct (decide _); reflexivity.
Qed.

(** C5. Collision response for two particles with distinct centers, with
    [n] the unit normal from the second center to the first and [speed] the
    relative velocity projected on [n].  The velocities change only when
    the particles approach ([speed < 0]); in the branch that applies the
    response ([speed <= 0]) the first velocity loses [speed * n] and the
    second gains it; the sum of the two velocities is the same before and
    after; and the components of the two velocities along [n] are
    exchanged. *)
Theorem collision_response (p1 p2 : particle) :
  x p1 <> x p2 \/ y p1 <> y p2 ->
  let n := collision_normal p1 p2 in
  let speed := normal_speed p1 p2 in
  exists q1 q2,
    resolve_particle_collision p1 p2 = Some (q1, q2)
    /\ n.1 * n.1 + n.2 * n.2 = 1
    /\ (0 <= speed -> vx q1 = vx p1 /\ vy q1 = vy p1 /\ vx q2 = vx p2 /\ vy q2 = vy p2)
    /\ (speed <= 0 ->
        vx q1 = vx p1 - speed * n.1 /\ vy q1 = vy p1 - speed * n.2
        /\ vx q2 = vx p2 + speed * n.1 /\ vy q2 = vy p2 + speed * n.2)
    /\ vx q1 + vx q2 = vx p1 + vx p2
    /\ vy q1 + vy q2 = vy p1 + vy p2
    /\ (speed <= 0 ->
        vx q1 * n.1 + vy q1 * n.2 = vx p2 * n.1 + vy p2 * n.2
        /\ vx q2 * n.1 + vy q2 * n.2 = vx p1 * n.1 + vy p1 * n.2).
Proof.
  intros Hne n speed.
  pose proof (resolve_distinct p1 p2 Hne) as Hr. cbv zeta in Hr.
  fold n speed in Hr.
  assert (Hunit : n.1 * n.1 + n.2 * n.2 = 1).
  { apply normal_is_unit. rewrite distance_zero_iff. lra. }
  assert (Hs : speed = (vx p1 - vx p2) * n.1 + (vy p1 - vy p2) * n.2) by reflexivity.
  clearbody speed n.
  destruct (decide (speed > 0)) as [Hpos|Hnpos];
    eexists _, _; (split; [exact Hr|]); simpl;
    (split; [exact Hunit|]).
  - repeat split; intros; lra.
  - assert (speed <= 0) by lra.
    split; [intros; assert (speed = 0) as -> by lra; lra|].
    split; [auto|]. split; [lra|]. split; [lra|].
    intros _. split; nra.
Qed.

(** The specification's head-on case: the first particle moves at speed 3
    toward the second, which is at rest; afterwards the first is at rest
    and the second moves at speed 3. *)
Lemma collision_head_on_example :
  let p1 := mk_particle 100 100 3 0 15 74 75 in
  let p2 := mk_particle 120 100 0 0 15 76 77 in
  check_particle_collision p1 p2 = true
  /\ resolve_particle_collision p1 p2
     = Some (mk_particle 95 100 0 0 15 74 75, mk_particle 125 100 3 0 15 76 77).
Proof.
  cbv zeta.
  assert (Hd : sqrt ((100 - 120) * (100 - 120) + (100 - 100) * (100 - 100)) = 20).
  { apply sqrt_lem_1; lra. }
  split.
  - unfold check_particle_collision. simpl. rewrite Hd.
    apply bool_decide_eq_true. lra.
  - rewrite resolve_distinct by (simpl; lra).
    unfold normal_speed, collision_normal, center_distance.
    cbn [x y vx vy radius cc_x cc_y fst snd]. rewrite Hd.
    rewrite decide_False by lra. do 2 f_equal; f_equal; lra.
Qed.

(** [resolve_particle_collision] never divides by zero. *)
Lemma resolve_never_raises (p1 p2 : particle) :
  is_Some (resolve_particle_collision p1 p2).
Proof.
  unfold resolve_particle_collision, Py.div.
  destruct (decide (sqrt _ = 0)) as [H|H]; [eexists; reflexivity|].
  simpl. destruct (decide _); eexists; reflexivity.
Qed.

Lemma resolve_at_zero_distance (p1 p2 : particle) :
  center_distance p1 p2 = 0 -> resolve_particle_collision p1 p2 = Some (p1, p2).
Proof.
  intros Hd. unfold resolve_particle_collision. fold (center_distance p1 p2).
  rewrite decide_True by exact Hd. reflexivity.
Qed.

Lemma identical_centers_distance (p1 p2 : particle) :
  x p1 = x p2 -> y p1 = y p2 -> center_distance p1 p2 = 0.
Proof. intros Hx Hy. unfold center_distance. apply distance_zero_iff. lra. Qed.

(** C10. Two particles with identical centers: the resolution returns at
    the zero-distance test, with a result (no division is attempted) and
    with both particles, position and velocity, as they were. *)
Theorem collision_identical_centers (p1 p2 : particle) :
  x p1 = x p2 ->
  y p1 = y p2 ->
  center_distance p1 p2 = 0
  /\ resolve_particle_collision p1 p2 = Some (p1, p2).
Proof.
  intros Hx Hy. pose proof (identical_centers_distance p1 p2 Hx Hy) as Hd.
  split; [exact Hd|]. apply resolve_at_zero_distance, Hd.
Qed.

(** The whole tick with coinciding centers after the move: it produces a
    state and keeps the two moved particles as they are. *)
Lemma update_identical_centers (s : t) :
  let red := update_particle (temperature s) (red_particle s) in
  let green := update_particle (temperature s) (green_particle s) in
  x red = x green ->
  y red = y green ->
  exists s1, update s = Some s1 /\ red_particle s1 = red /\ green_particle s1 = green.
Proof.
  intros red green Hx Hy. unfold update. fold red green.
  rewrite (resolve_at_zero_distance red green)
    by (apply identical_centers_distance; assumption).
  destruct (check_particle_collision red green); simpl; eexists; eauto.
Qed.

(** Every tick of the particle module produces a state. *)
Lemma update_never_raises (s : t) : is_Some (update s).
Proof.
  unfold update.
  set (red := update_particle _ (red_particle s)).
  set (green := update_particle _ (green_particle s)).
  destruct (check_particle_collision red green); [|eexists; reflexivity].
  destruct (resolve_never_raises red green) as [[q1 q2] ->]. eexists; reflexivity.
Qed.

End particle_physics.

(** ** Gravity module: convergence at full strength *)

Section gravity_convergence.

Import Gravity.

Lemma tenth_of_quotient (a d : R) : 0 < d -> (a / d > 0.1 <-> d < 10 * a).
Proof.
  intros Hd. assert (Hq : a / d * d = a) by (field; lra).
  split; intros H; nra.
Qed.

Lemma outside_iff (z : Scaled.t) (c : controller) :
  Scaled.represents z c ->
  Scaled.outside z = true <-> Rabs (value c - 64) > 0.1.
Proof.
  intros (Hs & Hd & _). apply IZR_lt in Hs.
  unfold Scaled.outside. rewrite bool_decide_eq_true, Hd.
  unfold Rdiv. rewrite Rabs_mult, (Rabs_pos_eq (/ _)), <- abs_IZR
    by (left; apply Rinv_0_lt_compat, Hs).
  fold (Rdiv (IZR (Z.abs (Scaled.num_d z))) (IZR (Scaled.scale z))).
  rewrite tenth_of_quotient by exact Hs.
  rewrite <- (mult_IZR 10). split; [apply IZR_lt|apply lt_IZR].
Qed.

Lemma step_represents (gf : R) (b : Base.t) (z : Scaled.t) (c : controller) :
  gf = 0.8 ->
  Scaled.represents z c ->
  Scaled.outside z = true ->
  Scaled.unclamped (Scaled.step z) = true ->
  Scaled.represents (Scaled.step z) (update_controller gf b c).2.
Proof.
  intros -> Hrep Hout Hin.
  pose proof (proj1 (outside_iff z c Hrep) Hout) as Habs.
  destruct Hrep as (Hs & Hd & Hv).
  rewrite update_controller_outside by exact Habs. cbv zeta.
  unfold Scaled.unclamped in Hin. apply bool_decide_eq_true in Hin.
  destruct Hin as [Hlo Hhi]. apply IZR_le in Hlo, Hhi.
  unfold Scaled.represents. simpl in *.
  rewrite ?plus_IZR, ?mult_IZR, ?minus_IZR, ?mult_IZR in *.
  set (A := IZR (Scaled.num_d z)) in *. set (B := IZR (Scaled.num_v z)) in *.
  assert (HD : 0 < IZR (Scaled.scale z)) by (apply IZR_lt, Hs).
  set (D := IZR (Scaled.scale z)) in *.
  assert (Hval : value c = 64 + A / D) by lra.
  assert (Hr1 : (1250 * A + 49 * (25 * B - 2 * A)) / (1250 * D)
                = A / D + 49 * (25 * (B / D) - 2 * (A / D)) / 1250) by (field; lra).
  assert (Hr2 : 49 * (25 * B - 2 * A) / (1250 * D)
                = 49 * (25 * (B / D) - 2 * (A / D)) / 1250) by (field; lra).
  assert (Hq : (1250 * A + 49 * (25 * B - 2 * A)) / (1250 * D) * (1250 * D)
               = 1250 * A + 49 * (25 * B - 2 * A)) by (field; lra).
  split; [lia|]. split.
  - rewrite clamp_id; [rewrite Hr1, Hv; lra|].
    assert (Hnew : value c + (velocity c + - (value c - 64) * 0.8 * 0.1) * 0.98 - 64
                   = (1250 * A + 49 * (25 * B - 2 * A)) / (1250 * D))
      by (rewrite Hr1, Hv; lra).
    set (q := (1250 * A + 49 * (25 * B - 2 * A)) / (1250 * D)) in *.
    split; nra.
  - rewrite Hr2, Hv. lra.
Qed.

Lemma run_represents (gf : R) (b : Base.t) (n : nat) :
  gf = 0.8 ->
  forall (z z' : Scaled.t) (c : controller),
    Scaled.run n z = Some z' ->
    Scaled.represents z c ->
    Scaled.represents z' (Nat.iter n (fun c => (update_controller gf b c).2) c)
    /\ forall m, (m < n)%nat ->
         Rabs (value (Nat.iter m (fun c => (update_controller gf b c).2) c) - 64) > 0.1.
Proof.
  intros Hgf. induction n as [|n IH]; intros z z' c Hrun Hrep.
  - injection Hrun as <-. split; [exact Hrep|]. intros m Hm. lia.
  - simpl in Hrun.
    destruct (Scaled.outside z) eqn:Hout; [|discriminate].
    destruct (Scaled.unclamped (Scaled.step z)) eqn:Hin; [|discriminate].
    simpl in Hrun.
    pose proof (step_represents gf b z c Hgf Hrep Hout Hin) as Hrep1.
    destruct (IH _ _ _ Hrun Hrep1) as [Hfin Hbefore].
    rewrite Nat.iter_succ_r. split; [exact Hfin|].
    intros [|m] Hm.
    + simpl. apply (outside_iff z c Hrep), Hout.
    + rewrite Nat.iter_succ_r. apply Hbefore. lia.
Qed.

Lemma lands_after_72 : Scaled.lands 72 Scaled.start = true.
Proof. vm_compute. reflexivity. Qed.

Lemma update_controller_inside (gf : R) (b : Base.t) (c : controller) :
  gf > 0 ->
  Rabs (value c - 64) <= 0.1 ->
  (update_controller gf b c).2 = mk_controller (cc c) 64 0 (name c).
Proof.
  intros Hgf Hin. unfold update_controller.
  rewrite decide_False by lra. rewrite decide_True by exact Hgf. reflexivity.
Qed.

Lemma rest_is_fixed (gf : R) (b : Base.t) (c : controller) (n : nat) :
  gf > 0 ->
  Rabs (value c - 64) <= 0.1 ->
  let c' := Nat.iter (S n) (fun c => (update_controller gf b c).2) c in
  value c' = 64 /\ velocity c' = 0.
Proof.
  intros Hgf Hin. induction n as [|n IH].
  - simpl. rewrite update_controller_inside by assumption. auto.
  - cbv zeta in *. rewrite Nat.iter_succ. destruct IH as [Hv Hvel].
    rewrite update_controller_inside; [auto|exact Hgf|].
    rewrite Hv. split_R; lra.
Qed.

Lemma ticks_lookup (s : t) (i : nat) (c : controller) (n : nat) :
  controllers s !! i = Some c ->
  controllers (ticks n s) !! i
  = Some (Nat.iter n (fun c => (update_controller (get_gravity_force s) Base.init c).2) c).
Proof.
  intros Hc. induction n as [|n IH]; [exact Hc|].
  change (ticks (S n) s) with (update (ticks n s)).
  rewrite update_controllers_of, list_lookup_fmap, IH. simpl.
  destruct (ticks_frame n s) as (Hg & _).
  unfold get_gravity_force. rewrite Hg. reflexivity.
Qed.

(** C9. Gravity strength 1, a controller at value 127 with velocity 0.
    For the first 72 ticks the controller is outside the deadzone; the 72nd
    tick brings it inside, and from then on it stays there: after every
    later tick its value is 64 and its velocity 0. *)
Theorem gravity_converges_from_127 (s : t) (i : nat) (c : controller) :
  gravity_strength s = 1 ->
  controllers s !! i = Some c ->
  value c = 127 ->
  velocity c = 0 ->
  forall n, exists cn,
    controllers (ticks n s) !! i = Some cn
    /\ ((n < 72)%nat -> Rabs (value cn - 64) > 0.1)
    /\ ((72 <= n)%nat -> Rabs (value cn - 64) <= 0.1)
    /\ ((72 < n)%nat -> value cn = 64 /\ velocity cn = 0).
Proof.
  intros Hg Hc Hval Hvel n.
  set (f := fun c => (update_controller (get_gravity_force s) Base.init c).2).
  exists (Nat.iter n f c). split; [apply ticks_lookup, Hc|].
  assert (Hgf : get_gravity_force s = 0.8) by (rewrite get_gravity_force_eq, Hg; lra).
  assert (Hrep : Scaled.represents Scaled.start c).
  { unfold Scaled.represents. simpl. rewrite Hval, Hvel. split; [lia|]. split; lra. }
  pose proof lands_after_72 as Hland. unfold Scaled.lands in Hland.
  destruct (Scaled.run 72 Scaled.start) as [z|] eqn:Hrun; [|discriminate].
  destruct (run_represents _ Base.init 72 Hgf _ _ c Hrun Hrep) as [Hrep72 Hbefore].
  fold f in Hrep72, Hbefore.
  assert (Hin72 : Rabs (value (Nat.iter 72 f c) - 64) <= 0.1).
  { apply Rnot_gt_le. intros Hout. apply (outside_iff _ _ Hrep72) in Hout.
    rewrite Hout in Hland. discriminate. }
  assert (Hlater : forall k, value (Nat.iter (S k) f (Nat.iter 72 f c)) = 64
                             /\ velocity (Nat.iter (S k) f (Nat.iter 72 f c)) = 0).
  { intros k. apply (rest_is_fixed _ Base.init); [lra|exact Hin72]. }
  split; [apply Hbefore|]. split.
  - intros Hn. destruct (decide (n = 72%nat)) as [->|Hne]; [exact Hin72|].
    replace n with (S (n - 73) + 72)%nat by lia.
    rewrite Nat.iter_add. destruct (Hlater (n - 73)%nat) as [-> _].
    split_R; lra.
  - intros Hn. replace n with (S (n - 73) + 72)%nat by lia.
    rewrite Nat.iter_add. apply Hlater.
Qed.

End gravity_convergence.

(** ** Pendulum module: the arm length *)

Section pendulum_length.

Import Pendulum.

Lemma init_length_ok : length_ok init.
Proof. unfold length_ok, init, min_length, max_length. simpl. lra. Qed.

Lemma handle_mouse_events_length_ok (s : t) (event : Base.event) (mouse_x mouse_y : Z) :
  length_ok s -> length_ok (handle_mouse_events s event mouse_x mouse_y).
Proof.
  unfold length_ok. intros Hs. destruct event as [button|button| |]; simpl.
  - destruct (decide _); [|exact Hs].
    unfold press_bob, press_mode, press_length. simpl.
    repeat (destruct (Base.collidepoint _ _ _ _ _ _); simpl);
      destruct (decide _); simpl; exact Hs.
  - destruct (decide _); exact Hs.
  - destruct (dragging_length s); simpl.
    + pose proof (clamp_bounds 0 1
        (1 - (IZR mouse_y - mouse_offset s - IZR length_slider_y)
             / IZR length_slider_height) ltac:(lra)) as Hc.
      unfold min_length, max_length in *. nra.
    + destruct (dragging_pendulum s); [|exact Hs].
      destruct (decide _); exact Hs.
  - exact Hs.
Qed.

Lemma update_length_ok (s : t) :
  length_ok s -> exists s1, update s = Some s1 /\ length_ok s1.
Proof.
  unfold length_ok. intros Hs.
  assert (HL : length s <> 0) by (unfold min_length in Hs; lra).
  unfold update. destruct (dragging_pendulum s); simpl.
  - destruct (generate_midi_output_eq s HL) as (b & -> & _).
    eexists. split; [reflexivity|exact Hs].
  - destruct (update_physics_eq s HL) as (sp & -> & _ & _ & Hlen & _). simpl.
    assert (HLp : length sp <> 0) by (rewrite Hlen; exact HL).
    destruct (generate_midi_output_eq sp HLp) as (b & -> & _).
    eexists. split; [reflexivity|]. simpl. rewrite Hlen. exact Hs.
Qed.

End pendulum_length.

(** ** The theorems at concrete inputs *)

Section instances.

Lemma gravity_update_is_amended_tick_falling :
  let s := {| Gravity.base := Base.init;
              Gravity.controllers :=
                [ Gravity.mk_controller 74 100 (-1) "Controller 1";
                  Gravity.mk_controller 75 64 0 "Controller 2";
                  Gravity.mk_controller 76 (64 + 5 / 100) 2 "Controller 3" ];
              Gravity.gravity_strength := 0.5;
              Gravity.dragging_controller := None;
              Gravity.dragging_gravity := false;
              Gravity.mouse_offset := 0 |} in
  Gravity.controllers (Gravity.update s)
  = map (Spec.spring_tick_amended (Gravity.gravity_strength s)) (Gravity.controllers s).
Proof.
  intros s.
  assert (H : 0 <= Gravity.gravity_strength s <= 1) by (simpl; lra).
  exact (proj1 (gravity_update_is_amended_tick s H)).
Defined.

Lemma midi_values_in_range_pendulum :
  is_Some (Pendulum.cc_value 200 500) /\ is_Some (Pendulum.pitch_value 200 500).
Proof. apply (proj2 (proj2 (proj2 midi_values_in_range)) 200 500). lra. Defined.

Lemma midi_values_truncate_pendulum :
  Pendulum.cc_value 200 500
  = Some (Spec.toControlValue_trunc 500
            (IZR Pendulum.pivot_x - 200) (IZR Pendulum.pivot_x + 200))
  /\ Pendulum.pitch_value 200 500
     = Some (Spec.toPitchBend_trunc ((500 - IZR Pendulum.pivot_x) / 200)).
Proof. apply (proj2 midi_values_truncate 200 500). lra. Defined.

Lemma collision_response_head_on :
  let p1 := Particle.mk_particle 100 100 3 0 15 74 75 in
  let p2 := Particle.mk_particle 120 100 0 0 15 76 77 in
  let n := Particle.collision_normal p1 p2 in
  let speed := Particle.normal_speed p1 p2 in
  exists q1 q2,
    Particle.resolve_particle_collision p1 p2 = Some (q1, q2)
    /\ n.1 * n.1 + n.2 * n.2 = 1
    /\ (0 <= speed ->
        Particle.vx q1 = Particle.vx p1 /\ Particle.vy q1 = Particle.vy p1
        /\ Particle.vx q2 = Particle.vx p2 /\ Particle.vy q2 = Particle.vy p2)
    /\ (speed <= 0 ->
        Particle.vx q1 = Particle.vx p1 - speed * n.1
        /\ Particle.vy q1 = Particle.vy p1 - speed * n.2
        /\ Particle.vx q2 = Particle.vx p2 + speed * n.1
        /\ Particle.vy q2 = Particle.vy p2 + speed * n.2)
    /\ Particle.vx q1 + Particle.vx q2 = Particle.vx p1 + Particle.vx p2
    /\ Particle.vy q1 + Particle.vy q2 = Particle.vy p1 + Particle.vy p2
    /\ (speed <= 0 ->
        Particle.vx q1 * n.1 + Particle.vy q1 * n.2
        = Particle.vx p2 * n.1 + Particle.vy p2 * n.2
        /\ Particle.vx q2 * n.1 + Particle.vy q2 * n.2
           = Particle.vx p1 * n.1 + Particle.vy p1 * n.2).
Proof.
  apply (collision_response (Particle.mk_particle 100 100 3 0 15 74 75)
           (Particle.mk_particle 120 100 0 0 15 76 77)).
  simpl. lra.
Defined.

Lemma wall_reflection_left_wall :
  let p := Particle.mk_particle 16 200 (-3) 1 15 74 75 in
  let q := Particle.update_particle 0 p in
  Particle.x q = 15 /\ Particle.vx q = 3 /\ Particle.vy q = 1.
Proof.
  cbv zeta.
  destruct (wall_reflection 0 (Particle.mk_particle 16 200 (-3) 1 15 74 75))
    as [Hx Hy]; try (unfold Particle.sim_width, Particle.sim_height; simpl; lra).
  cbv zeta in Hx, Hy.
  unfold Particle.get_speed_multiplier, Particle.max_speed_multiplier,
    Particle.sim_width, Particle.sim_height in Hx, Hy.
  simpl in Hx, Hy.
  destruct Hx as (Hleft & _ & _). destruct Hy as (_ & _ & Hmid).
  destruct Hleft as [-> ->]; [lra|lra|]. destruct Hmid as [_ ->]; [lra|].
  repeat split; lra.
Defined.

Lemma pendulum_update_free_init :
  exists s1,
    Pendulum.update Pendulum.init = Some s1
    /\ Pendulum.angular_velocity s1
       = (0 + - (Pendulum.gravity / 200) * sin (PI / 4) * 0.1) * 0.999
    /\ Pendulum.angle s1 = PI / 4 + Pendulum.angular_velocity s1
    /\ Pendulum.length s1 = 200.
Proof.
  destruct (pendulum_update_free Pendulum.init) as (s1 & H1 & H2 & H3 & H4 & _).
  - reflexivity.
  - simpl. lra.
  - exists s1. auto.
Defined.

Lemma drag_continuity_init :
  exists s1 s2 c2,
    Gravity.handle_mouse_events Gravity.init (Base.MOUSEBUTTONDOWN 1) 140 350 = Some s1
    /\ Gravity.controllers s1 = Gravity.controllers Gravity.init
    /\ Gravity.dragging_controller s1 = Some 0%nat
    /\ Gravity.handle_mouse_events (Gravity.ticks 2 s1) Base.MOUSEMOTION 140 350
       = Some s2
    /\ Gravity.controllers s2 !! 0%nat = Some c2
    /\ Gravity.value c2 = 64.
Proof.
  destruct (drag_continuity Gravity.init 0
              (Gravity.mk_controller 74 64 0 "Controller 1") 140 350 2)
    as (s1 & s2 & c2 & H1 & H2 & H3 & _ & H5 & H6 & H7 & _).
  - reflexivity.
  - reflexivity.
  - simpl. lra.
  - reflexivity.
  - exists s1, s2, c2. auto 10.
Defined.

Lemma gravity_converges_from_127_at_100 :
  let s := {| Gravity.base := Base.init;
              Gravity.controllers :=
                [ Gravity.mk_controller 74 127 0 "Controller 1";
                  Gravity.mk_controller 75 64 0 "Controller 2";
                  Gravity.mk_controller 76 64 0 "Controller 3" ];
              Gravity.gravity_strength := 1;
              Gravity.dragging_controller := None;
              Gravity.dragging_gravity := false;
              Gravity.mouse_offset := 0 |} in
  exists cn,
    Gravity.controllers (Gravity.ticks 100 s) !! 0%nat = Some cn
    /\ Gravity.value cn = 64 /\ Gravity.velocity cn = 0.
Proof.
  intros s.
  destruct (gravity_converges_from_127 s 0
              (Gravity.mk_controller 74 127 0 "Controller 1")
              eq_refl eq_refl eq_refl eq_refl 100%nat)
    as (cn & Hc & _ & _ & Hrest).
  exists cn. split; [exact Hc|]. apply Hrest. lia.
Defined.

Lemma collision_identical_centers_example :
  let p1 := Particle.mk_particle 200 200 1 2 15 74 75 in
  let p2 := Particle.mk_particle 200 200 (-1) 0 15 76 77 in
  Particle.center_distance p1 p2 = 0
  /\ Particle.resolve_particle_collision p1 p2 = Some (p1, p2).
Proof.
  apply (collision_identical_centers (Particle.mk_particle 200 200 1 2 15 74 75)
           (Particle.mk_particle 200 200 (-1) 0 15 76 77)); reflexivity.
Defined.

End instances.

(** * Further properties of the code *)

(** ** midi_physics_base.py: what reaches the port *)

Section base_output.

Lemma int_in_range (v : R) : 0 <= v <= 127 -> (0 <= Py.int v <= 127)%Z.
Proof.
  intros [H0 H1]. destruct (int_nonneg v H0) as [Hlo Hhi]. split.
  - apply Z.lt_succ_r, lt_IZR. rewrite succ_IZR. lra.
  - apply le_IZR. lra.
Qed.

Lemma log_write_short (b : Base.t) (status data1 data2 : Z) :
  is_Some (Base.midi_out b) ->
  Inv.log (Base.write_short b status data1 data2)
  = Inv.log b ++ [(status, data1, data2)]
  /\ Base.midi_channel (Base.write_short b status data1 data2) = Base.midi_channel b
  /\ is_Some (Base.midi_out (Base.write_short b status data1 data2)).
Proof.
  intros [l Hl]. unfold Base.write_short, Inv.log. rewrite Hl. simpl. eauto.
Qed.

Lemma status_byte (high channel : Z) :
  (0 <= channel <= 15)%Z ->
  (high = 0xB0 \/ high = 0xE0)%Z ->
  Z.lor high channel = (high + channel)%Z.
Proof.
  intros Hc Hh.
  assert (Hcases : (channel = 0 \/ channel = 1 \/ channel = 2 \/ channel = 3
                    \/ channel = 4 \/ channel = 5 \/ channel = 6 \/ channel = 7
                    \/ channel = 8 \/ channel = 9 \/ channel = 10 \/ channel = 11
                    \/ channel = 12 \/ channel = 13 \/ channel = 14 \/ channel = 15)%Z)
    by lia.
  destruct Hh as [-> | ->];
    repeat (destruct Hcases as [-> | Hcases]; [reflexivity|]);
    subst; reflexivity.
Qed.

(** X1. [send_cc] on an open port with a controller number and a value in
    0..127 appends exactly one message: status [0xB0 + channel] (channel
    0..15), the controller number, and the value truncated to an integer,
    itself in 0..127 and at most one below the value. *)
Theorem send_cc_writes (b : Base.t) (cc_number : Z) (value : R) :
  is_Some (Base.midi_out b) ->
  (0 <= Base.midi_channel b <= 15)%Z ->
  (0 <= cc_number <= 127)%Z ->
  0 <= value <= 127 ->
  Inv.log (Base.send_cc b cc_number value)
  = Inv.log b ++ [((0xB0 + Base.midi_channel b)%Z, cc_number, Py.int value)]
  /\ (0 <= Py.int value <= 127)%Z
  /\ IZR (Py.int value) <= value < IZR (Py.int value) + 1.
Proof.
  intros Hopen Hch Hcc Hv. unfold Base.send_cc.
  rewrite !bool_decide_eq_true_2 by assumption. simpl.
  rewrite status_byte by auto.
  split; [apply log_write_short, Hopen|].
  split; [apply int_in_range, Hv|apply int_nonneg, Hv].
Qed.

(** [send_cc] drops the message, leaving the port as it was, when the
    port is not open, when the controller number is outside 0..127 or when
    the value is outside [0,127]. *)
Theorem send_cc_drops (b : Base.t) (cc_number : Z) (value : R) :
  Base.midi_out b = None \/ ~ (0 <= cc_number <= 127)%Z \/ ~ 0 <= value <= 127 ->
  Base.send_cc b cc_number value = b.
Proof.
  intros H. unfold Base.send_cc.
  destruct H as [H | [H | H]].
  - rewrite (bool_decide_eq_false_2 (is_Some _)); [reflexivity|].
    rewrite H. intros [? ?]; discriminate.
  - rewrite (bool_decide_eq_false_2 _ H), andb_false_r. reflexivity.
  - rewrite (bool_decide_eq_false_2 _ H), andb_false_r. reflexivity.
Qed.

Lemma pitch_bytes (value : Z) :
  let pitch_value := Py.clampZ 0 16383 (value + 8192) in
  let lsb := Z.land pitch_value 0x7F in
  let msb := Z.land (Z.shiftr pitch_value 7) 0x7F in
  (0 <= lsb <= 127)%Z /\ (0 <= msb <= 127)%Z
  /\ (lsb + 128 * msb - 8192)%Z = Py.clampZ (-8192) 8191 value.
Proof.
  cbv zeta. set (p := Py.clampZ 0 16383 (value + 8192)).
  assert (Hp : (0 <= p <= 16383)%Z) by (apply clampZ_bounds; lia).
  assert (Hpv : (p - 8192 = Py.clampZ (-8192) 8191 value)%Z)
    by (unfold p, Py.clampZ; lia).
  clearbody p. set (r := Py.clampZ (-8192) 8191 value) in *. clearbody r.
  change 0x7F%Z with (Z.ones 7). rewrite !Z.land_ones, Z.shiftr_div_pow2 by lia.
  change (2 ^ 7)%Z with 128%Z.
  assert (Hq : (0 <= p / 128 <= 127)%Z).
  { split; [apply Z.div_pos; lia|]. apply Z.lt_succ_r, Z.div_lt_upper_bound; lia. }
  rewrite (Z.mod_small (p / 128)) by lia.
  pose proof (Z.mod_pos_bound p 128 ltac:(lia)).
  pose proof (Z.div_mod p 128 ltac:(lia)).
  change (Z.ones 7) with 127%Z. repeat split; lia.
Qed.

(** X2. [send_pitch_bend] on an open port appends exactly one message:
    status [0xE0 + channel] and two seven-bit data bytes that hold the bend
    value offset by 8192, low seven bits first.  Decoding them gives back
    the value for every value in -8192..8191, and the nearer end of that
    range for a value outside it. *)
Theorem send_pitch_bend_round_trip (b : Base.t) (value : Z) :
  is_Some (Base.midi_out b) ->
  (0 <= Base.midi_channel b <= 15)%Z ->
  exists lsb msb,
    Inv.log (Base.send_pitch_bend b value)
    = Inv.log b ++ [((0xE0 + Base.midi_channel b)%Z, lsb, msb)]
    /\ (0 <= lsb <= 127)%Z /\ (0 <= msb <= 127)%Z
    /\ (lsb + 128 * msb - 8192)%Z = Py.clampZ (-8192) 8191 value
    /\ ((-8192 <= value <= 8191)%Z -> (lsb + 128 * msb - 8192)%Z = value).
Proof.
  intros Hopen Hch. unfold Base.send_pitch_bend.
  rewrite bool_decide_eq_true_2 by exact Hopen. cbv zeta.
  rewrite status_byte by auto.
  destruct (pitch_bytes value) as (Hl & Hm & Hdec). cbv zeta in Hl, Hm, Hdec.
  eexists _, _. split; [apply log_write_short, Hopen|].
  repeat split; try apply Hl; try apply Hm; try exact Hdec.
  rewrite Hdec. unfold Py.clampZ. lia.
Qed.

Lemma extends_refl (b : Base.t) : Inv.extends b b.
Proof.
  split; [reflexivity|]. split; [tauto|].
  exists []. rewrite app_nil_r. split; [reflexivity|constructor].
Qed.

Lemma extends_trans (b1 b2 b3 : Base.t) :
  Inv.extends b1 b2 -> Inv.extends b2 b3 -> Inv.extends b1 b3.
Proof.
  intros (Hc1 & Ho1 & m1 & Hl1 & Hv1) (Hc2 & Ho2 & m2 & Hl2 & Hv2).
  split; [congruence|]. split; [tauto|].
  exists (m1 ++ m2). rewrite Hl2, Hl1, app_assoc. split; [reflexivity|].
  apply Forall_app; auto.
Qed.

Lemma extends_write_short (b : Base.t) (status data1 data2 : Z) :
  (0 <= data1 <= 127)%Z -> (0 <= data2 <= 127)%Z ->
  Inv.extends b (Base.write_short b status data1 data2).
Proof.
  intros H1 H2. destruct (Base.midi_out b) as [l|] eqn:Hl.
  - destruct (log_write_short b status data1 data2) as (Hlog & Hch & Hopen);
      [rewrite Hl; eauto|].
    split; [exact Hch|]. split; [rewrite Hl; split; eauto|].
    exists [(status, data1, data2)]. split; [exact Hlog|].
    constructor; [split; assumption|constructor].
  - unfold Base.write_short. rewrite Hl. apply extends_refl.
Qed.

Lemma extends_send_cc (b : Base.t) (cc_number : Z) (value : R) :
  Inv.extends b (Base.send_cc b cc_number value).
Proof.
  unfold Base.send_cc.
  destruct (bool_decide (is_Some _)) eqn:H1; simpl; [|apply extends_refl].
  destruct (bool_decide (0 <= cc_number <= 127)%Z) eqn:H2; simpl; [|apply extends_refl].
  destruct (bool_decide (0 <= value <= 127)) eqn:H3; simpl; [|apply extends_refl].
  apply bool_decide_eq_true in H2, H3.
  apply extends_write_short; [exact H2|apply int_in_range, H3].
Qed.

Lemma extends_send_pitch_bend (b : Base.t) (value : Z) :
  Inv.extends b (Base.send_pitch_bend b value).
Proof.
  unfold Base.send_pitch_bend.
  destruct (bool_decide (is_Some _)); [|apply extends_refl]. cbv zeta.
  destruct (pitch_bytes value) as (Hl & Hm & _). cbv zeta in Hl, Hm.
  apply extends_write_short; assumption.
Qed.

End base_output.

(** ** The run loop, generically *)

Section loop_invariant.

Context {S : Type}.
Variable handle_mouse_events : S -> Base.event -> Z -> Z -> option S.
Variable update : S -> option S.
Variable P : S -> Prop.

Hypothesis handle_ok : forall s e mouse_x mouse_y,
  P s -> exists s1, handle_mouse_events s e mouse_x mouse_y = Some s1 /\ P s1.
Hypothesis update_ok : forall s, P s -> exists s1, update s = Some s1 /\ P s1.

Lemma events_invariant (queue : list (Loop.event * Z * Z)) (s : S) :
  P s ->
  exists running s1,
    Loop.events handle_mouse_events s queue = Some (running, s1) /\ P s1.
Proof.
  revert s. induction queue as [|[[e mouse_x] mouse_y] queue IH]; intros s Hs; simpl.
  - eauto.
  - destruct (Loop.handle_base_events e); [|eauto].
    destruct (handle_ok s (Loop.mouse_view e) mouse_x mouse_y Hs) as (s1 & -> & Hs1).
    simpl. apply IH, Hs1.
Qed.

Lemma frame_invariant (queue : list (Loop.event * Z * Z)) (s : S) :
  P s ->
  exists running s1,
    Loop.frame handle_mouse_events update s queue = Some (running, s1) /\ P s1.
Proof.
  intros Hs. unfold Loop.frame.
  destruct (events_invariant queue s Hs) as (running & s1 & -> & Hs1). simpl.
  destruct running; [|eauto].
  destruct (update_ok s1 Hs1) as (s2 & -> & Hs2). simpl. eauto.
Qed.

Lemma run_invariant (frames : list (list (Loop.event * Z * Z))) (s : S) :
  P s ->
  exists s1, Loop.run handle_mouse_events update s frames = Some s1 /\ P s1.
Proof.
  revert s. induction frames as [|queue frames IH]; intros s Hs; simpl; [eauto|].
  destruct (frame_invariant queue s Hs) as (running & s1 & -> & Hs1). simpl.
  destruct running; [apply IH, Hs1|eauto].
Qed.

End loop_invariant.

(** ** Gravity module: invariants and the sliders *)

Section gravity_more.

Import Gravity.

Lemma update_controller_range (gf : R) (b : Base.t) (c : controller) :
  0 <= value c <= 127 ->
  0 <= value (update_controller gf b c).2 <= 127
  /\ cc (update_controller gf b c).2 = cc c
  /\ name (update_controller gf b c).2 = name c.
Proof.
  intros Hc. unfold update_controller. case_decide_R; simpl.
  - split; [apply clamp_bounds; lra|auto].
  - split; [lra|auto].
  - auto.
Qed.

Lemma update_controller_extends (gf : R) (b : Base.t) (c : controller) :
  Inv.extends b (update_controller gf b c).1.
Proof.
  unfold update_controller. case_decide_R; simpl;
    [apply extends_send_cc|apply extends_refl|apply extends_refl].
Qed.

Lemma update_controllers_extends (gf : R) (cs : list controller) (b : Base.t) :
  Inv.extends b (update_controllers gf b cs).1.
Proof.
  revert b. induction cs as [|c cs IH]; intros b; simpl; [apply extends_refl|].
  pose proof (update_controller_extends gf b c) as H1.
  destruct (update_controller gf b c) as [b1 c1]. simpl in H1.
  specialize (IH b1). destruct (update_controllers gf b1 cs) as [b2 cs1]. simpl in *.
  eapply extends_trans; eassumption.
Qed.

Lemma update_extends (s : t) : Inv.extends (base s) (base (update s)).
Proof.
  unfold update.
  pose proof (update_controllers_extends (get_gravity_force s) (controllers s) (base s)).
  destruct (update_controllers _ _ _). assumption.
Qed.

Lemma update_invariant (s : t) :
  Inv.gravity s ->
  Inv.gravity (update s)
  /\ map cc (controllers (update s)) = map cc (controllers s)
  /\ map name (controllers (update s)) = map name (controllers s).
Proof.
  intros (Hlen & Hval & Hg & Hdrag).
  destruct (update_frame s) as (Hg' & Hd' & _).
  rewrite update_controllers_of.
  set (f := fun c => (update_controller (get_gravity_force s) Base.init c).2).
  assert (Hf : Forall (fun c => 0 <= value (f c) <= 127 /\ cc (f c) = cc c
                                /\ name (f c) = name c) (controllers s)).
  { eapply Forall_impl; [exact Hval|]. intros c Hc.
    apply update_controller_range, Hc. }
  split; [|split].
  - unfold Inv.gravity. rewrite update_controllers_of, Hg', Hd', length_map.
    fold f. split; [exact Hlen|]. split; [|auto].
    apply Forall_fmap. eapply Forall_impl; [exact Hf|]. simpl. tauto.
  - rewrite <- list_fmap_compose. apply Forall_fmap_ext_1.
    eapply Forall_impl; [exact Hf|]. simpl. tauto.
  - rewrite <- list_fmap_compose. apply Forall_fmap_ext_1.
    eapply Forall_impl; [exact Hf|]. simpl. tauto.
Qed.

Lemma press_controllers_dragging (k : nat) (cs : list controller) (mouse_x mouse_y : Z)
  (s : t) :
  let s1 := press_controllers k cs mouse_x mouse_y s in
  base s1 = base s /\ controllers s1 = controllers s
  /\ gravity_strength s1 = gravity_strength s
  /\ dragging_gravity s1 = dragging_gravity s
  /\ (dragging_controller s1 = dragging_controller s
      \/ exists j, (j < List.length cs)%nat /\ dragging_controller s1 = Some (k + j)%nat).
Proof.
  revert k. induction cs as [|c cs IH]; intros k; simpl; [auto 10|].
  destruct (slider_hit k mouse_x mouse_y); simpl.
  - repeat split. right. exists 0%nat. rewrite Nat.add_0_r. split; [lia|reflexivity].
  - destruct (IH (Datatypes.S k)) as (? & ? & ? & ? & [Hd | (j & Hj & Hd)]); auto 10.
    repeat split; auto. right. exists (Datatypes.S j).
    split; [lia|]. rewrite Hd. f_equal. lia.
Qed.

Lemma handle_mouse_events_invariant (s : t) (event : Base.event) (mouse_x mouse_y : Z) :
  Inv.gravity s ->
  exists s1,
    handle_mouse_events s event mouse_x mouse_y = Some s1
    /\ Inv.gravity s1
    /\ map cc (controllers s1) = map cc (controllers s)
    /\ map name (controllers s1) = map name (controllers s)
    /\ Inv.extends (base s) (base s1).
Proof.
  intros (Hlen & Hval & Hg & Hdrag).
  destruct event as [button|button| |]; simpl.
  - destruct (decide _);
      [|exists s; split; [reflexivity|]; split; [|auto using extends_refl];
        split; [exact Hlen|]; split; [exact Hval|]; split; [exact Hg|exact Hdrag]].
    eexists. split; [reflexivity|].
    destruct (press_controllers_dragging 0 (controllers s) mouse_x mouse_y s)
      as (Hb & Hcs & Hgs & _ & Hd).
    set (s1 := press_controllers _ _ _ _ _) in *.
    assert (Hpg : base (press_gravity mouse_x mouse_y s1) = base s1
                  /\ controllers (press_gravity mouse_x mouse_y s1) = controllers s1
                  /\ gravity_strength (press_gravity mouse_x mouse_y s1) = gravity_strength s1
                  /\ dragging_controller (press_gravity mouse_x mouse_y s1)
                     = dragging_controller s1).
    { unfold press_gravity. destruct (Base.collidepoint _ _ _ _ _ _); auto. }
    destruct Hpg as (Hb1 & Hcs1 & Hg1 & Hd1).
    unfold Inv.gravity. rewrite Hb1, Hcs1, Hg1, Hcs, Hb, Hgs.
    split; [|auto using extends_refl].
    split; [exact Hlen|]. split; [exact Hval|]. split; [exact Hg|].
    intros i Hi. rewrite Hd1 in Hi. destruct Hd as [Hd | (j & Hj & Hd)].
    + apply Hdrag. congruence.
    + rewrite Hd in Hi. injection Hi as <-. lia.
  - destruct (decide _); eexists; (split; [reflexivity|]);
      (split; [|auto using extends_refl]);
      (split; [exact Hlen|]); (split; [exact Hval|]); (split; [exact Hg|]);
      [discriminate|exact Hdrag].
  - destruct (dragging_controller s) as [i|] eqn:Hd.
    + assert (Hi : (i < 3)%nat) by (apply Hdrag; reflexivity).
      destruct (lookup_lt_is_Some_2 (controllers s) i) as [c Hc]; [lia|].
      rewrite Hc. simpl. eexists. split; [reflexivity|].
      unfold Inv.gravity. simpl.
      set (v := Py.clamp 0 1 _ * 127).
      assert (Hv : 0 <= v <= 127).
      { unfold v. match goal with |- context [Py.clamp 0 1 ?x] =>
          pose proof (clamp_bounds 0 1 x ltac:(lra)) end. lra. }
      split; [|split; [|split]].
      * split; [rewrite length_insert; exact Hlen|]. split; [|auto].
        apply Forall_insert; assumption.
      * rewrite list_fmap_insert. simpl. apply list_insert_id.
        rewrite list_lookup_fmap, Hc. reflexivity.
      * rewrite list_fmap_insert. simpl. apply list_insert_id.
        rewrite list_lookup_fmap, Hc. reflexivity.
      * apply extends_send_cc.
    + destruct (dragging_gravity s).
      * eexists. split; [reflexivity|]. unfold Inv.gravity. simpl.
        split; [|auto using extends_refl].
        split; [exact Hlen|]. split; [exact Hval|].
        split; [apply clamp_bounds; lra|]. discriminate.
      * exists s. split; [reflexivity|]. split; [|auto using extends_refl].
        split; [exact Hlen|]. split; [exact Hval|]. split; [exact Hg|].
        rewrite Hd. discriminate.
  - exists s. split; [reflexivity|]. split; [|auto using extends_refl].
    split; [exact Hlen|]. split; [exact Hval|]. split; [exact Hg|exact Hdrag].
Qed.

Lemma init_invariant : Inv.gravity init.
Proof.
  split; [reflexivity|]. split; [|split; [simpl; lra|discriminate]].
  repeat constructor; simpl; lra.
Qed.

(** X3. The gravity module's run loop never fails.  From a state with three
    controllers whose values lie in [0,127], a gravity strength in [0,1] and
    a grabbed slider index below 3 (the initial state is one), any sequence
    of frames, whatever events and pointer positions they carry, ends in a
    state of the same kind: the controller lookup of the drag branch never
    raises, the controllers keep their CC numbers and names, and the port
    has only received further messages with seven-bit data bytes. *)
Theorem gravity_run_safe (s : t) (frames : list (list (Loop.event * Z * Z))) :
  Inv.gravity s ->
  exists s1,
    Loop.gravity_run s frames = Some s1
    /\ Inv.gravity s1
    /\ map cc (controllers s1) = map cc (controllers s)
    /\ map name (controllers s1) = map name (controllers s)
    /\ Inv.extends (base s) (base s1).
Proof.
  intros Hs.
  set (P := fun s1 => Inv.gravity s1
                      /\ map cc (controllers s1) = map cc (controllers s)
                      /\ map name (controllers s1) = map name (controllers s)
                      /\ Inv.extends (base s) (base s1)).
  apply (run_invariant handle_mouse_events (fun s => Some (update s)) P).
  - intros s1 e mouse_x mouse_y (H1 & H2 & H3 & H4).
    destruct (handle_mouse_events_invariant s1 e mouse_x mouse_y H1)
      as (s2 & -> & H5 & H6 & H7 & H8).
    exists s2. split; [reflexivity|]. unfold P.
    split; [exact H5|]. split; [congruence|]. split; [congruence|].
    eapply extends_trans; eassumption.
  - intros s1 (H1 & H2 & H3 & H4).
    destruct (update_invariant s1 H1) as (H5 & H6 & H7).
    exists (update s1). split; [reflexivity|]. unfold P.
    split; [exact H5|]. split; [congruence|]. split; [congruence|].
    eapply extends_trans; [eassumption|apply update_extends].
  - unfold P. auto using extends_refl.
Qed.

Lemma press_controllers_miss (k : nat) (cs : list controller) (mouse_x mouse_y : Z)
  (s : t) :
  (forall j, (j < List.length cs)%nat -> slider_hit (k + j) mouse_x mouse_y = false) ->
  press_controllers k cs mouse_x mouse_y s = s.
Proof.
  revert k. induction cs as [|c cs IH]; intros k Hmiss; simpl; [reflexivity|].
  rewrite <- (Nat.add_0_r k) at 1. rewrite Hmiss by (simpl; lia).
  apply IH. intros j Hj. replace (Datatypes.S k + j)%nat with (k + Datatypes.S j)%nat by lia.
  apply Hmiss. simpl. lia.
Qed.

Lemma press_on_gravity_slider (s : t) (mouse_x mouse_y : Z) :
  List.length (controllers s) = 3%nat ->
  Base.collidepoint gravity_slider_x gravity_slider_y
    gravity_slider_width gravity_slider_height mouse_x mouse_y = true ->
  handle_mouse_events s (Base.MOUSEBUTTONDOWN 1) mouse_x mouse_y
  = Some {| base := base s; controllers := controllers s;
            gravity_strength := gravity_strength s;
            dragging_controller := dragging_controller s;
            dragging_gravity := true;
            mouse_offset :=
              IZR mouse_y - (IZR gravity_slider_y + IZR gravity_slider_height
                             - gravity_strength s * IZR gravity_slider_height) |}.
Proof.
  intros Hlen Hhit. unfold handle_mouse_events.
  rewrite decide_True by reflexivity.
  rewrite press_controllers_miss.
  - unfold press_gravity. rewrite Hhit. reflexivity.
  - intros j Hj. simpl. destruct (slider_hit j mouse_x mouse_y) eqn:Hj'; [|reflexivity].
    rewrite (slider_hit_not_gravity j) in Hhit by (assumption || lia). discriminate.
Qed.

(** X4. The gravity slider follows the pointer from where it was grabbed.
    With no controller slider grabbed, a left press inside the gravity
    slider changes neither the gravity strength [g] nor any controller; a
    later drag event with the pointer [mouse_y - mouse_y'] pixels higher,
    after any number [n] of frames, sets the strength to
    [g + (mouse_y - mouse_y') / 200] clamped to [0,1], and touches no
    controller.  A drag at the press height gives back [g] when [g] is in
    [0,1]. *)
Theorem gravity_slider_drag (s : t) (mouse_x mouse_y mouse_x' mouse_y' : Z) (n : nat) :
  List.length (controllers s) = 3%nat ->
  dragging_controller s = None ->
  Base.collidepoint gravity_slider_x gravity_slider_y
    gravity_slider_width gravity_slider_height mouse_x mouse_y = true ->
  exists s1 s2,
    handle_mouse_events s (Base.MOUSEBUTTONDOWN 1) mouse_x mouse_y = Some s1
    /\ gravity_strength s1 = gravity_strength s
    /\ controllers s1 = controllers s
    /\ dragging_gravity s1 = true
    /\ handle_mouse_events (ticks n s1) Base.MOUSEMOTION mouse_x' mouse_y' = Some s2
    /\ gravity_strength s2
       = Py.clamp 0 1 (gravity_strength s + (IZR mouse_y - IZR mouse_y') / 200)
    /\ controllers s2 = controllers (ticks n s1)
    /\ (0 <= gravity_strength s <= 1 -> mouse_y' = mouse_y ->
        gravity_strength s2 = gravity_strength s).
Proof.
  intros Hlen Hidle Hhit.
  pose proof (press_on_gravity_slider s mouse_x mouse_y Hlen Hhit) as Hpress.
  set (s1 := mk _ _ _ _ _ _) in Hpress.
  assert (Hg1 : gravity_strength s1 = gravity_strength s) by reflexivity.
  assert (Hd1 : dragging_controller s1 = None) by exact Hidle.
  assert (Hdg1 : dragging_gravity s1 = true) by reflexivity.
  assert (Hmo : mouse_offset s1
                = IZR mouse_y - (IZR gravity_slider_y + IZR gravity_slider_height
                                 - gravity_strength s * IZR gravity_slider_height))
    by reflexivity.
  assert (Hcs : controllers s1 = controllers s) by reflexivity.
  clearbody s1.
  destruct (ticks_frame n s1) as (Hg & Hd & Hdg & Ho & _).
  rewrite Hg1 in Hg. rewrite Hd1 in Hd. rewrite Hdg1 in Hdg. rewrite Hmo in Ho.
  assert (Harg : 1 - (IZR mouse_y' - mouse_offset (ticks n s1) - IZR gravity_slider_y)
                     / IZR gravity_slider_height
                 = gravity_strength s + (IZR mouse_y - IZR mouse_y') / 200).
  { rewrite Ho. unfold gravity_slider_y, gravity_slider_height. lra. }
  exists s1. eexists.
  split; [exact Hpress|]. split; [exact Hg1|]. split; [exact Hcs|].
  split; [exact Hdg1|]. split.
  { unfold handle_mouse_events. rewrite Hd, Hdg. reflexivity. }
  simpl. rewrite Harg. split; [reflexivity|]. split; [reflexivity|].
  intros Hrange ->. rewrite clamp_id; lra.
Qed.

(** X5. A click without movement is harmless.  A left press anywhere
    followed by the release leaves the port, every controller and the
    gravity strength as they were and ends with nothing grabbed; pointer
    motion after that changes nothing at all. *)
Theorem press_release_round_trip (s s1 s2 : t)
  (mouse_x mouse_y mouse_x' mouse_y' mouse_x'' mouse_y'' : Z) :
  handle_mouse_events s (Base.MOUSEBUTTONDOWN 1) mouse_x mouse_y = Some s1 ->
  handle_mouse_events s1 (Base.MOUSEBUTTONUP 1) mouse_x' mouse_y' = Some s2 ->
  base s2 = base s
  /\ controllers s2 = controllers s
  /\ gravity_strength s2 = gravity_strength s
  /\ dragging_controller s2 = None
  /\ dragging_gravity s2 = false
  /\ handle_mouse_events s2 Base.MOUSEMOTION mouse_x'' mouse_y'' = Some s2.
Proof.
  intros Hpress Hrelease.
  assert (H1 : base s1 = base s /\ controllers s1 = controllers s
               /\ gravity_strength s1 = gravity_strength s).
  { unfold handle_mouse_events in Hpress. rewrite decide_True in Hpress by reflexivity.
    injection Hpress as <-.
    destruct (press_controllers_dragging 0 (controllers s) mouse_x mouse_y s)
      as (Hb & Hcs & Hgs & _).
    unfold press_gravity. destruct (Base.collidepoint _ _ _ _ _ _); simpl; auto. }
  destruct H1 as (Hb & Hcs & Hgs).
  unfold handle_mouse_events in Hrelease. rewrite decide_True in Hrelease by reflexivity.
  injection Hrelease as <-. simpl. auto 10.
Qed.

(** X6. The center is absorbing.  With a gravity strength above 0, a
    controller that is within 0.1 of 64 has value 64 and velocity 0 after
    every later tick. *)
Theorem deadzone_is_absorbing (s : t) (i : nat) (c : controller) (n : nat) :
  0 < gravity_strength s ->
  controllers s !! i = Some c ->
  Rabs (value c - 64) <= 0.1 ->
  exists cn,
    controllers (ticks (Datatypes.S n) s) !! i = Some cn
    /\ value cn = 64 /\ velocity cn = 0
    /\ cc cn = cc c /\ name cn = name c.
Proof.
  intros Hg Hc Hin.
  assert (Hgf : get_gravity_force s > 0) by (rewrite get_gravity_force_eq; nra).
  eexists. split; [apply ticks_lookup, Hc|].
  destruct (rest_is_fixed _ Base.init c n Hgf Hin) as [Hv Hvel].
  split; [exact Hv|]. split; [exact Hvel|].
  clear Hv Hvel. induction n as [|n IH].
  - simpl. rewrite update_controller_inside by assumption. auto.
  - rewrite Nat.iter_succ.
    assert (Hr : 0 <= value c <= 127) by (revert Hin; split_R; lra).
    set (cn := Nat.iter (Datatypes.S n) _ c) in *.
    unfold update_controller. case_decide_R; simpl; tauto.
Qed.

(** X7. Zero gravity.  With gravity strength 0 a controller that has no
    velocity and a value in [0,127] is exactly where it was after any
    number of ticks. *)
Theorem zero_gravity_is_still (s : t) (i : nat) (c : controller) (n : nat) :
  gravity_strength s = 0 ->
  controllers s !! i = Some c ->
  velocity c = 0 ->
  0 <= value c <= 127 ->
  controllers (ticks n s) !! i = Some c.
Proof.
  intros Hg Hc Hv Hr. rewrite (ticks_lookup s i c n Hc). f_equal.
  induction n as [|n IH]; [reflexivity|].
  rewrite Nat.iter_succ, IH. apply zero_gravity_at_rest; assumption.
Qed.

End gravity_more.

(** ** Gravity module: the label shown for a strength *)

Section gravity_labels.

Lemma min_from_spec (key : R -> R) (rest : list R) (best : R) :
  let m := Labels.min_from key best rest in
  In m (best :: rest) /\ forall k, In k (best :: rest) -> key m <= key k.
Proof.
  revert best. induction rest as [|k rest IH]; intros best; simpl.
  - split; [auto|]. intros k [<-|[]]. lra.
  - specialize (IH (if decide (key k < key best) then k else best)).
    cbv zeta in IH. destruct IH as [Hin Hmin]. split.
    + destruct Hin as [Hin|Hin]; [|auto].
      rewrite <- Hin. destruct (decide _); auto.
    + intros k' Hk'.
      assert (Hb : key (Labels.min_from key (if decide (key k < key best) then k else best)
                          rest)
                   <= key (if decide (key k < key best) then k else best))
        by (apply Hmin; left; reflexivity).
      destruct Hk' as [<-|[<-|Hk']].
      * destruct (decide _); lra.
      * destruct (decide _); lra.
      * apply Hmin. right. exact Hk'.
Qed.

Lemma getitem_labels (k : R) :
  In k (map fst Labels.gravity_labels) ->
  exists label, Labels.getitem Labels.gravity_labels k = Some label
                /\ In (k, label) Labels.gravity_labels.
Proof.
  simpl. intros [<-|[<-|[<-|[<-|[<-|[]]]]]]; eexists;
    (split; [unfold Labels.getitem, Labels.gravity_labels;
             repeat (first [rewrite decide_True by lra | rewrite decide_False by lra]);
             reflexivity
            |simpl; auto 10]).
Qed.

(** X8. [get_closest_gravity_label] always finds a label, that of a key of
    the table that is at least as close to the gravity strength as every
    other key. *)
Theorem closest_label_is_closest (s : Gravity.t) :
  exists k label,
    Labels.get_closest_gravity_label s = Some label
    /\ In (k, label) Labels.gravity_labels
    /\ forall k' label', In (k', label') Labels.gravity_labels ->
         Rabs (k - Gravity.gravity_strength s) <= Rabs (k' - Gravity.gravity_strength s).
Proof.
  unfold Labels.get_closest_gravity_label.
  set (key := fun x => Rabs (x - Gravity.gravity_strength s)).
  change (map fst Labels.gravity_labels) with [0; 0.2; 0.5; 0.8; 1].
  unfold Labels.py_min.
  destruct (min_from_spec key [0.2; 0.5; 0.8; 1] 0) as [Hin Hmin].
  set (m := Labels.min_from key 0 [0.2; 0.5; 0.8; 1]) in *.
  destruct (getitem_labels m Hin) as (label & Hget & Hlab).
  exists m, label. split; [simpl; exact Hget|]. split; [exact Hlab|].
  intros k' label' Hk'. apply (Hmin k').
  exact (in_map fst _ _ Hk').
Qed.

(** X9. The label as a function of a gravity strength [g] in [0,1]:
    "Zero G" up to 0.1, "Moon" above 0.1 up to 0.35, "Earth" above 0.35 up
    to 0.65, "Jupiter" above 0.65 up to 0.9 and "Black Hole" above 0.9; at a
    midpoint between two keys the lower label wins. *)
Theorem closest_label_thresholds (s : Gravity.t) :
  let g := Gravity.gravity_strength s in
  0 <= g <= 1 ->
  Labels.get_closest_gravity_label s
  = Some (if decide (g <= 0.1) then "Zero G"
          else if decide (g <= 0.35) then "Moon"
          else if decide (g <= 0.65) then "Earth"
          else if decide (g <= 0.9) then "Jupiter"
          else "Black Hole")%string.
Proof.
  intros g Hg. unfold Labels.get_closest_gravity_label. fold g.
  change (map fst Labels.gravity_labels) with [0; 0.2; 0.5; 0.8; 1].
  unfold Labels.py_min, Labels.min_from.
  assert (H0 : Rabs (0 - g) = g) by (unfold Rabs; destruct (Rcase_abs _); lra).
  assert (H2 : Rabs (0.2 - g) = if decide (g <= 0.2) then 0.2 - g else g - 0.2)
    by (clear - g; destruct (decide (g <= 0.2)); unfold Rabs; destruct (Rcase_abs _); lra).
  assert (H5 : Rabs (0.5 - g) = if decide (g <= 0.5) then 0.5 - g else g - 0.5)
    by (clear - g; destruct (decide (g <= 0.5)); unfold Rabs; destruct (Rcase_abs _); lra).
  assert (H8 : Rabs (0.8 - g) = if decide (g <= 0.8) then 0.8 - g else g - 0.8)
    by (clear - g; destruct (decide (g <= 0.8)); unfold Rabs; destruct (Rcase_abs _); lra).
  assert (H1 : Rabs (1 - g) = 1 - g) by (unfold Rabs; destruct (Rcase_abs _); lra).
  destruct (decide (g <= 0.1)); [|destruct (decide (g <= 0.35));
    [|destruct (decide (g <= 0.65)); [|destruct (decide (g <= 0.9))]]];
    repeat (first
      [ rewrite (decide_True (P := Rabs _ < Rabs _))
          by (rewrite ?H0, ?H1, ?H2, ?H5, ?H8; repeat destruct (decide _); lra)
      | rewrite (decide_False (P := Rabs _ < Rabs _))
          by (rewrite ?H0, ?H1, ?H2, ?H5, ?H8; repeat destruct (decide _); lra) ]);
    simpl; unfold Labels.getitem, Labels.gravity_labels;
    repeat (first [rewrite decide_True by lra | rewrite decide_False by lra]);
    reflexivity.
Qed.

End gravity_labels.

(** ** Particle module: more on walls and collisions *)

Section particle_more.

Import Particle.

Lemma square_of_abs (a b : R) : Rabs a = Rabs b -> a * a = b * b.
Proof. unfold Rabs. repeat destruct (Rcase_abs _); intros H; nra. Qed.

Lemma bounce_band (pos vel radius bound : R) :
  radius <= bound - radius ->
  let '(pos1, vel1) := bounce pos vel radius bound in
  radius <= pos1 <= bound - radius
  /\ Rabs vel1 = Rabs vel
  /\ (pos1 = radius -> pos <= radius -> 0 <= vel1)
  /\ (pos1 = bound - radius -> radius < pos -> vel1 <= 0 \/ pos1 = pos).
Proof.
  intros Hband. unfold bounce. case_decide_R.
  - split; [lra|]. split; [apply Rabs_Rabsolu|]. split; [|lra].
    intros _ _. apply Rabs_pos.
  - split; [lra|]. split; [rewrite Rabs_Ropp; apply Rabs_Rabsolu|].
    split; [lra|]. intros _ _. left. pose proof (Rabs_pos vel). lra.
  - split; [lra|]. split; [reflexivity|]. split; [lra|]. auto.
Qed.

(** X10. After [update_particle] the particle is inside the band on both
    axes, each coordinate between [radius] and the arena size minus
    [radius], whatever the temperature and wherever it started; and the
    magnitude of each velocity component is what it was, so walls never
    change the speed. *)
Theorem update_particle_in_band (temperature : R) (p : particle) :
  radius p <= IZR sim_width - radius p ->
  radius p <= IZR sim_height - radius p ->
  let q := update_particle temperature p in
  radius p <= x q <= IZR sim_width - radius p
  /\ radius p <= y q <= IZR sim_height - radius p
  /\ Rabs (vx q) = Rabs (vx p)
  /\ Rabs (vy q) = Rabs (vy p)
  /\ vx q * vx q + vy q * vy q = vx p * vx p + vy p * vy p
  /\ radius q = radius p /\ cc_x q = cc_x p /\ cc_y q = cc_y p.
Proof.
  intros Hw Hh q.
  destruct (update_particle_axes temperature p) as (Hx & Hy & Hr).
  fold q in Hx, Hy, Hr.
  pose proof (bounce_band (x p + vx p * get_speed_multiplier temperature) (vx p) _ _ Hw)
    as Bx.
  pose proof (bounce_band (y p + vy p * get_speed_multiplier temperature) (vy p) _ _ Hh)
    as By.
  rewrite <- Hx in Bx. rewrite <- Hy in By.
  destruct Bx as (Bx1 & Bx2 & _). destruct By as (By1 & By2 & _).
  split; [exact Bx1|]. split; [exact By1|]. split; [exact Bx2|]. split; [exact By2|].
  split.
  - rewrite (square_of_abs _ _ Bx2), (square_of_abs _ _ By2). reflexivity.
  - split; [exact Hr|]. unfold q, update_particle.
    destruct (bounce _ (vx p) _ _), (bounce _ (vy p) _ _). auto.
Qed.

Lemma resolve_keeps_bindings (p1 p2 q1 q2 : particle) :
  resolve_particle_collision p1 p2 = Some (q1, q2) ->
  radius q1 = radius p1 /\ cc_x q1 = cc_x p1 /\ cc_y q1 = cc_y p1
  /\ radius q2 = radius p2 /\ cc_x q2 = cc_x p2 /\ cc_y q2 = cc_y p2.
Proof.
  unfold resolve_particle_collision, Py.div.
  destruct (decide (sqrt _ = 0)); [intros [= <- <-]; auto 10|].
  simpl. destruct (decide _); intros [= <- <-]; simpl; auto 10.
Qed.

(** X11. The collision response keeps the kinetic energy: for any two
    particles, the sum of the squared velocity components of both is the
    same after [resolve_particle_collision] as before. *)
Theorem collision_conserves_energy (p1 p2 q1 q2 : particle) :
  resolve_particle_collision p1 p2 = Some (q1, q2) ->
  vx q1 * vx q1 + vy q1 * vy q1 + vx q2 * vx q2 + vy q2 * vy q2
  = vx p1 * vx p1 + vy p1 * vy p1 + vx p2 * vx p2 + vy p2 * vy p2.
Proof.
  intros Hres.
  destruct (decide (center_distance p1 p2 = 0)) as [Hz|Hnz].
  - rewrite (resolve_at_zero_distance p1 p2 Hz) in Hres.
    injection Hres as <- <-. reflexivity.
  - assert (Hne : x p1 <> x p2 \/ y p1 <> y p2).
    { destruct (decide (x p1 = x p2)); [|auto].
      destruct (decide (y p1 = y p2)); [|auto].
      exfalso. apply Hnz, identical_centers_distance; assumption. }
    rewrite (resolve_distinct p1 p2 Hne) in Hres. cbv zeta in Hres.
    assert (Hunit : (collision_normal p1 p2).1 * (collision_normal p1 p2).1
                    + (collision_normal p1 p2).2 * (collision_normal p1 p2).2 = 1).
    { apply normal_is_unit. exact Hnz. }
    assert (Hs : normal_speed p1 p2
                 = (vx p1 - vx p2) * (collision_normal p1 p2).1
                   + (vy p1 - vy p2) * (collision_normal p1 p2).2) by reflexivity.
    set (n := collision_normal p1 p2) in *. set (sp := normal_speed p1 p2) in *.
    clearbody n sp.
    destruct (decide (sp > 0)); injection Hres as <- <-; simpl; [reflexivity|].
    assert (E : (vx p1 - sp * n.1) * (vx p1 - sp * n.1)
                + (vy p1 - sp * n.2) * (vy p1 - sp * n.2)
                + (vx p2 + sp * n.1) * (vx p2 + sp * n.1)
                + (vy p2 + sp * n.2) * (vy p2 + sp * n.2)
                - (vx p1 * vx p1 + vy p1 * vy p1 + vx p2 * vx p2 + vy p2 * vy p2)
                = 2 * sp * (sp * (n.1 * n.1 + n.2 * n.2)
                            - ((vx p1 - vx p2) * n.1 + (vy p1 - vy p2) * n.2))) by ring.
    rewrite Hunit, <- Hs in E. lra.
Qed.

End particle_more.

(** ** Particle module: temperature, the run loop and the CC scale *)

Section particle_run.

Import Particle.

(** X13. The temperature slider follows the pointer from where it was
    grabbed: a left press inside it changes nothing but the grab, and a
    drag event with the pointer [mouse_y - mouse_y'] pixels higher sets the
    temperature to [t + (mouse_y - mouse_y') / 200] clamped to [0,1], which
    puts the speed multiplier between 1 and 3; neither event touches a
    particle. *)
Theorem temperature_slider_drag (s : t) (mouse_x mouse_y mouse_x' mouse_y' : Z) :
  Base.collidepoint temp_slider_x temp_slider_y temp_slider_width temp_slider_height
    mouse_x mouse_y = true ->
  let s1 := handle_mouse_events s (Base.MOUSEBUTTONDOWN 1) mouse_x mouse_y in
  let s2 := handle_mouse_events s1 Base.MOUSEMOTION mouse_x' mouse_y' in
  temperature s1 = temperature s
  /\ dragging_temperature s1 = true
  /\ temperature s2
     = Py.clamp 0 1 (temperature s + (IZR mouse_y - IZR mouse_y') / 200)
  /\ 1 <= get_speed_multiplier (temperature s2) <= 3
  /\ red_particle s2 = red_particle s /\ green_particle s2 = green_particle s
  /\ base s2 = base s.
Proof.
  intros Hhit. cbv zeta.
  assert (Hpress : handle_mouse_events s (Base.MOUSEBUTTONDOWN 1) mouse_x mouse_y
                   = {| base := base s; red_particle := red_particle s;
                        green_particle := green_particle s;
                        temperature := temperature s;
                        dragging_temperature := true;
                        mouse_offset :=
                          IZR mouse_y - (IZR temp_slider_y + IZR temp_slider_height
                                         - temperature s * IZR temp_slider_height) |}).
  { unfold handle_mouse_events. rewrite decide_True by reflexivity.
    rewrite Hhit. reflexivity. }
  rewrite Hpress. unfold handle_mouse_events.
  cbn [temperature dragging_temperature mouse_offset red_particle green_particle base].
  assert (Harg : 1 - (IZR mouse_y' - (IZR mouse_y - (IZR temp_slider_y
                        + IZR temp_slider_height
                        - temperature s * IZR temp_slider_height))
                      - IZR temp_slider_y) / IZR temp_slider_height
                 = temperature s + (IZR mouse_y - IZR mouse_y') / 200)
    by (unfold temp_slider_y, temp_slider_height; lra).
  rewrite Harg. repeat split; try reflexivity;
    pose proof (clamp_bounds 0 1 (temperature s + (IZR mouse_y - IZR mouse_y') / 200)
                  ltac:(lra));
    unfold get_speed_multiplier, max_speed_multiplier; lra.
Qed.

Lemma handle_mouse_events_temperature (s : t) (event : Base.event) (mouse_x mouse_y : Z) :
  Inv.particle s ->
  let s1 := handle_mouse_events s event mouse_x mouse_y in
  Inv.particle s1 /\ red_particle s1 = red_particle s
  /\ green_particle s1 = green_particle s /\ base s1 = base s.
Proof.
  unfold Inv.particle. intros Ht. destruct event as [button|button| |]; simpl.
  - destruct (decide _); [|auto].
    destruct (Base.collidepoint _ _ _ _ _ _); auto.
  - destruct (decide _); auto.
  - destruct (dragging_temperature s); [|auto]. simpl.
    split; [apply clamp_bounds; lra|auto].
  - auto.
Qed.

Lemma send_particle_midi_extends (b : Base.t) (p : particle) :
  Inv.extends b (send_particle_midi b p).
Proof.
  unfold send_particle_midi.
  eapply extends_trans; apply extends_send_cc.
Qed.

Lemma update_bindings (s s1 : t) :
  update s = Some s1 ->
  temperature s1 = temperature s
  /\ radius (red_particle s1) = radius (red_particle s)
  /\ radius (green_particle s1) = radius (green_particle s)
  /\ cc_x (red_particle s1) = cc_x (red_particle s)
  /\ cc_y (red_particle s1) = cc_y (red_particle s)
  /\ cc_x (green_particle s1) = cc_x (green_particle s)
  /\ cc_y (green_particle s1) = cc_y (green_particle s)
  /\ Inv.extends (base s) (base s1).
Proof.
  unfold update.
  set (red := update_particle _ (red_particle s)).
  set (green := update_particle _ (green_particle s)).
  assert (Hred : radius red = radius (red_particle s) /\ cc_x red = cc_x (red_particle s)
                 /\ cc_y red = cc_y (red_particle s)).
  { unfold red, update_particle.
    destruct (bounce _ (vx _) _ _), (bounce _ (vy _) _ _). auto. }
  assert (Hgreen : radius green = radius (green_particle s)
                   /\ cc_x green = cc_x (green_particle s)
                   /\ cc_y green = cc_y (green_particle s)).
  { unfold green, update_particle.
    destruct (bounce _ (vx _) _ _), (bounce _ (vy _) _ _). auto. }
  destruct Hred as (Hr1 & Hr2 & Hr3). destruct Hgreen as (Hg1 & Hg2 & Hg3).
  assert (Hpair : forall q1 q2,
    (if check_particle_collision red green then resolve_particle_collision red green
     else Some (red, green)) = Some (q1, q2) ->
    radius q1 = radius red /\ cc_x q1 = cc_x red /\ cc_y q1 = cc_y red
    /\ radius q2 = radius green /\ cc_x q2 = cc_x green /\ cc_y q2 = cc_y green).
  { intros q1 q2. destruct (check_particle_collision red green).
    - apply resolve_keeps_bindings.
    - intros [= <- <-]. auto 10. }
  destruct (if check_particle_collision red green then _ else _) as [[q1 q2]|];
    [|discriminate].
  destruct (Hpair q1 q2 eq_refl) as (H1 & H2 & H3 & H4 & H5 & H6).
  simpl. intros [= <-]. simpl.
  do 7 (split; [congruence|]).
  eapply extends_trans; apply send_particle_midi_extends.
Qed.

(** X14. The particle module's run loop never fails.  From a state with a
    temperature in [0,1], any sequence of frames ends in a state with a
    temperature in [0,1]; no tick divides by zero, the particles keep their
    radii and CC numbers, and the port has only received further messages
    with seven-bit data bytes. *)
Theorem particle_run_safe (s : t) (frames : list (list (Loop.event * Z * Z))) :
  Inv.particle s ->
  exists s1,
    Loop.particle_run s frames = Some s1
    /\ Inv.particle s1
    /\ radius (red_particle s1) = radius (red_particle s)
    /\ radius (green_particle s1) = radius (green_particle s)
    /\ cc_x (red_particle s1) = cc_x (red_particle s)
    /\ cc_y (red_particle s1) = cc_y (red_particle s)
    /\ cc_x (green_particle s1) = cc_x (green_particle s)
    /\ cc_y (green_particle s1) = cc_y (green_particle s)
    /\ Inv.extends (base s) (base s1).
Proof.
  intros Hs.
  set (P := fun s1 =>
    Inv.particle s1
    /\ radius (red_particle s1) = radius (red_particle s)
    /\ radius (green_particle s1) = radius (green_particle s)
    /\ cc_x (red_particle s1) = cc_x (red_particle s)
    /\ cc_y (red_particle s1) = cc_y (red_particle s)
    /\ cc_x (green_particle s1) = cc_x (green_particle s)
    /\ cc_y (green_particle s1) = cc_y (green_particle s)
    /\ Inv.extends (base s) (base s1)).
  apply (run_invariant
           (fun s e mouse_x mouse_y => Some (handle_mouse_events s e mouse_x mouse_y))
           update P).
  - intros s1 e mouse_x mouse_y (H1 & H2 & H3 & H4 & H5 & H6 & H7 & H8).
    destruct (handle_mouse_events_temperature s1 e mouse_x mouse_y H1)
      as (K1 & K2 & K3 & K4).
    eexists. split; [reflexivity|]. unfold P. rewrite K2, K3, K4. auto 10.
  - intros s1 (H1 & H2 & H3 & H4 & H5 & H6 & H7 & H8).
    destruct (update_never_raises s1) as [s2 Hs2].
    destruct (update_bindings s1 s2 Hs2) as (K0 & K1 & K2 & K3 & K4 & K5 & K6 & K7).
    exists s2. split; [exact Hs2|]. unfold P, Inv.particle in *.
    rewrite K0. split; [exact H1|].
    do 6 (split; [congruence|]). eapply extends_trans; eassumption.
  - unfold P. auto 10 using extends_refl.
Qed.

Lemma int_monotone (a b : R) : a <= b -> (Py.int a <= Py.int b)%Z.
Proof.
  intros Hab.
  destruct (Rle_lt_dec 0 a) as [Ha|Ha]; destruct (Rle_lt_dec 0 b) as [Hb|Hb].
  - apply Z.lt_succ_r, lt_IZR. rewrite succ_IZR.
    pose proof (int_nonneg a Ha). pose proof (int_nonneg b Hb). lra.
  - lra.
  - pose proof (int_neg a Ha) as Hia. pose proof (int_nonneg b Hb) as Hib.
    assert (Py.int a < 1)%Z by (apply lt_IZR; lra).
    assert (-1 < Py.int b)%Z by (apply lt_IZR; lra). lia.
  - apply Z.lt_succ_r, lt_IZR. rewrite succ_IZR.
    pose proof (int_neg a Ha). pose proof (int_neg b Hb). lra.
Qed.

(** X15. The CC value of a particle axis never decreases when the
    coordinate grows; and for a particle of radius 15 inside the band, each
    coordinate between 15 and 385, both CC values lie between 4 and 122:
    the ends of the 0..127 scale are out of reach of a particle that is
    within the walls. *)
Theorem particle_midi_scale :
  (forall p q : particle, x p <= x q -> (x_midi p <= x_midi q)%Z)
  /\ (forall p q : particle, y p <= y q -> (y_midi p <= y_midi q)%Z)
  /\ (forall p : particle,
        radius p = 15 ->
        radius p <= x p <= IZR sim_width - radius p ->
        radius p <= y p <= IZR sim_height - radius p ->
        (4 <= x_midi p <= 122)%Z /\ (4 <= y_midi p <= 122)%Z).
Proof.
  assert (Hmono : forall a b, a <= b ->
            (Py.clampZ 0 127 (Py.int (a / 400 * 127))
             <= Py.clampZ 0 127 (Py.int (b / 400 * 127)))%Z).
  { intros a b Hab. pose proof (int_monotone (a / 400 * 127) (b / 400 * 127)
                                 ltac:(lra)).
    unfold Py.clampZ. lia. }
  assert (H15 : Py.clampZ 0 127 (Py.int (15 / 400 * 127)) = 4%Z)
    by (rewrite (int_eq_nonneg _ 4) by lra; reflexivity).
  assert (H385 : Py.clampZ 0 127 (Py.int (385 / 400 * 127)) = 122%Z)
    by (rewrite (int_eq_nonneg _ 122) by lra; reflexivity).
  split; [|split].
  - intros p q H. apply Hmono, H.
  - intros p q H. apply Hmono, H.
  - intros p Hr. rewrite Hr. unfold sim_width, sim_height, x_midi, y_midi.
    intros Hx Hy. rewrite <- H15, <- H385.
    repeat split; apply Hmono; lra.
Qed.

End particle_run.

(** ** Pendulum module: output, dragging and the run loop *)

Section pendulum_more.

Import Pendulum.

(** X16. The pendulum's output depends on the angle alone.  For any arm
    length other than zero, the CC branch computes the truncation of
    [(sin(angle) + 1) / 2 * 127], which is in 0..127 without the clamp
    doing anything, and the pitch-bend branch computes the truncation of
    [sin(angle) * 8192] clamped to -8192..8191. *)
Theorem pendulum_output_of_angle (s : t) :
  length s <> 0 ->
  let bob_x := (calculate_pendulum_position s).1 in
  cc_value (length s) bob_x = Some (Py.int ((sin (angle s) + 1) / 2 * 127))
  /\ (0 <= Py.int ((sin (angle s) + 1) / 2 * 127) <= 127)%Z
  /\ pitch_value (length s) bob_x
     = Some (Py.clampZ (-8192) 8191 (Py.int (sin (angle s) * 8192))).
Proof.
  intros HL bob_x. unfold bob_x. simpl.
  rewrite cc_value_some, pitch_value_some by exact HL.
  pose proof (SIN_bound (angle s)) as [Hlo Hhi].
  assert (Hr : (0 <= Py.int ((sin (angle s) + 1) / 2 * 127) <= 127)%Z)
    by (apply int_in_range; lra).
  replace ((IZR pivot_x + length s * sin (angle s) - (IZR pivot_x - length s))
           / (length s * 2) * 127)
    with ((sin (angle s) + 1) / 2 * 127) by (field; exact HL).
  replace ((IZR pivot_x + length s * sin (angle s) - IZR pivot_x) / length s * 8192)
    with (sin (angle s) * 8192) by (field; exact HL).
  split; [|split; [exact Hr|reflexivity]].
  f_equal. unfold Py.clampZ. lia.
Qed.

Lemma ray_direction (dx dy : R) :
  0 < dy ->
  sin (atan (dx / dy)) = dx / sqrt (dx * dx + dy * dy)
  /\ cos (atan (dx / dy)) = dy / sqrt (dx * dx + dy * dy).
Proof.
  intros Hdy. rewrite sin_atan, cos_atan.
  assert (Hpos : 0 < dx * dx + dy * dy) by nra.
  pose proof (sqrt_lt_R0 _ Hpos) as Hr.
  pose proof (sqrt_sqrt (dx * dx + dy * dy) ltac:(lra)) as Hrr.
  set (r := sqrt (dx * dx + dy * dy)) in *.
  assert (Hs : sqrt (1 + (dx / dy)²) = r / dy).
  { apply sqrt_lem_1.
    - unfold Rsqr. nra.
    - apply Rlt_le, Rdiv_lt_0_compat; assumption.
    - unfold Rsqr. replace (r / dy * (r / dy)) with (r * r / (dy * dy)) by (field; lra).
      rewrite Hrr. field. lra. }
  rewrite Hs. split; field; lra.
Qed.

(** X17. Dragging the bob.  While the bob is grabbed (and the length slider
    is not), a drag event with the pointer below the pivot sets the angle to
    [atan (dx / dy)], which lies strictly between -pi/2 and pi/2, so the
    clamp to +-0.8 pi never changes it; the bob is then on the ray from the
    pivot through the pointer, at arm's length.  With the pointer level
    with the pivot or above it, the event changes nothing. *)
Theorem pendulum_drag_angle (s : t) (mouse_x mouse_y : Z) :
  dragging_length s = false ->
  dragging_pendulum s = true ->
  let dx := IZR (mouse_x - pivot_x) in
  let dy := IZR (mouse_y - pivot_y) in
  let s1 := handle_mouse_events s Base.MOUSEMOTION mouse_x mouse_y in
  ((mouse_y > pivot_y)%Z ->
     angle s1 = atan (dx / dy)
     /\ - PI / 2 < angle s1 < PI / 2
     /\ calculate_pendulum_position s1
        = (IZR pivot_x + length s * (dx / sqrt (dx * dx + dy * dy)),
           IZR pivot_y + length s * (dy / sqrt (dx * dx + dy * dy)))
     /\ length s1 = length s /\ angular_velocity s1 = angular_velocity s)
  /\ ((mouse_y <= pivot_y)%Z -> s1 = s).
Proof.
  intros Hdl Hdp dx dy s1. unfold s1, handle_mouse_events. rewrite Hdl, Hdp.
  split; intros Hy.
  - rewrite decide_True by lia.
    cbn [angle length angular_velocity calculate_pendulum_position].
    fold dx dy.
    pose proof (atan_bound (dx / dy)) as Hb. pose proof PI_RGT_0 as Hpi.
    rewrite clamp_id by lra.
    assert (Hdy : 0 < dy) by (unfold dy; apply IZR_lt; lia).
    destruct (ray_direction dx dy Hdy) as [Hsin Hcos].
    split; [reflexivity|]. split; [lra|].
    unfold calculate_pendulum_position. cbn [angle length].
    rewrite Hsin, Hcos. auto.
  - rewrite decide_False by lia. reflexivity.
Qed.

Lemma update_physics_trail (s s1 : t) :
  update_physics s = Some s1 ->
  (List.length (trail_points s) <= max_trail_length)%nat ->
  (List.length (trail_points s1) <= max_trail_length)%nat.
Proof.
  unfold update_physics, Py.div. destruct (decide (length s = 0)); [discriminate|].
  simpl. intros [= <-] Hlen. simpl.
  destruct (decide _) as [Hlong|Hshort].
  - rewrite length_tl, length_app. simpl. lia.
  - lia.
Qed.

Lemma handle_mouse_events_frame (s : t) (event : Base.event) (mouse_x mouse_y : Z) :
  let s1 := handle_mouse_events s event mouse_x mouse_y in
  base s1 = base s /\ trail_points s1 = trail_points s /\ cc_number s1 = cc_number s
  /\ (current_mode s = 0 \/ current_mode s = 1 ->
      current_mode s1 = 0 \/ current_mode s1 = 1)%Z.
Proof.
  destruct event as [button|button| |]; simpl.
  - destruct (decide _); [|auto].
    unfold press_bob, press_mode, press_length. simpl.
    destruct (Base.collidepoint length_slider_x _ _ _ _ _),
      (Base.collidepoint mode_button_x _ _ _ _ _); simpl;
      destruct (decide _); simpl; repeat split; auto;
      intros [-> | ->]; vm_compute; auto.
  - destruct (decide _); auto.
  - destruct (dragging_length s); [simpl; auto|].
    destruct (dragging_pendulum s); [|auto].
    destruct (decide _); simpl; auto.
  - auto.
Qed.

Lemma update_pendulum_invariant (s : t) :
  Inv.pendulum s ->
  exists s1, update s = Some s1 /\ Inv.pendulum s1 /\ cc_number s1 = cc_number s
             /\ Inv.extends (base s) (base s1).
Proof.
  intros (HL & Hm & Ht).
  assert (HL0 : length s <> 0) by (unfold length_ok, min_length in HL; lra).
  assert (Hgen : forall sp, length sp = length s -> current_mode sp = current_mode s ->
            (List.length (trail_points sp) <= max_trail_length)%nat ->
            cc_number sp = cc_number s -> base sp = base s ->
            exists s1, generate_midi_output sp = Some s1 /\ Inv.pendulum s1
                       /\ cc_number s1 = cc_number s
                       /\ Inv.extends (base s) (base s1)).
  { intros sp Hl1 Hm1 Ht1 Hc1 Hb1.
    assert (HLp : length sp <> 0) by (rewrite Hl1; exact HL0).
    destruct (generate_midi_output_eq sp HLp) as (b & Hgo & Hcc & Hpb & Hnone).
    exists (set_base sp b). split; [exact Hgo|].
    split; [|split; [exact Hc1|]].
    - unfold Inv.pendulum, length_ok. simpl. rewrite Hl1, Hm1. auto.
    - simpl. rewrite <- Hb1. rewrite Hm1 in *.
      destruct Hm as [Hm|Hm].
      + destruct (Hcc Hm) as (v & _ & ->). apply extends_send_cc.
      + destruct (Hpb Hm) as (v & _ & ->). apply extends_send_pitch_bend. }
  unfold update. destruct (dragging_pendulum s); simpl.
  - apply Hgen; auto.
  - destruct (update_physics_eq s HL0) as (sp & Hup & _ & _ & Hl1 & Hm1 & Hc1 & Hb1).
    rewrite Hup. simpl. apply Hgen; auto.
    eapply update_physics_trail; eassumption.
Qed.

Lemma init_pendulum_invariant : Inv.pendulum init.
Proof.
  split; [apply init_length_ok|]. split; [left; reflexivity|].
  simpl. unfold max_trail_length. lia.
Qed.

(** X18. The pendulum module's run loop never fails.  From a state with the
    arm length in [100,300], the output mode 0 or 1 and at most 50 trail
    points (the initial state is one), any sequence of frames ends in such a
    state: no tick divides by a zero length, the trail never grows past 50
    points, the CC number is kept, and the port has only received further
    messages with seven-bit data bytes. *)
Theorem pendulum_run_safe (s : t) (frames : list (list (Loop.event * Z * Z))) :
  Inv.pendulum s ->
  exists s1,
    Loop.pendulum_run s frames = Some s1
    /\ Inv.pendulum s1
    /\ cc_number s1 = cc_number s
    /\ Inv.extends (base s) (base s1).
Proof.
  intros Hs.
  set (P := fun s1 => Inv.pendulum s1 /\ cc_number s1 = cc_number s
                      /\ Inv.extends (base s) (base s1)).
  apply (run_invariant
           (fun s e mouse_x mouse_y => Some (handle_mouse_events s e mouse_x mouse_y))
           update P).
  - intros s1 e mouse_x mouse_y ((HL & Hm & Ht) & Hc & Hb).
    destruct (handle_mouse_events_frame s1 e mouse_x mouse_y) as (K1 & K2 & K3 & K4).
    eexists. split; [reflexivity|]. unfold P, Inv.pendulum.
    rewrite K1, K2, K3.
    split; [|auto]. split; [apply handle_mouse_events_length_ok, HL|]. auto.
  - intros s1 (H1 & Hc & Hb).
    destruct (update_pendulum_invariant s1 H1) as (s2 & Hu & K1 & K2 & K3).
    exists s2. split; [exact Hu|]. unfold P.
    split; [exact K1|]. split; [congruence|]. eapply extends_trans; eassumption.
  - unfold P. auto using extends_refl.
Qed.

End pendulum_more.

(** ** Pendulum module: mode button, length slider, rest and hold *)

Section pendulum_controls.

Import Pendulum.

Lemma press_fields (s : t) (mouse_x mouse_y : Z) :
  let s1 := handle_mouse_events s (Base.MOUSEBUTTONDOWN 1) mouse_x mouse_y in
  length s1 = length s
  /\ current_mode s1 = current_mode (press_mode mouse_x mouse_y s)
  /\ dragging_length s1 = dragging_length (press_length mouse_x mouse_y s)
  /\ mouse_offset s1 = mouse_offset (press_length mouse_x mouse_y s).
Proof.
  cbv zeta. unfold handle_mouse_events. rewrite decide_True by reflexivity.
  unfold press_bob, press_mode, press_length. simpl.
  destruct (Base.collidepoint length_slider_x _ _ _ _ _),
    (Base.collidepoint mode_button_x _ _ _ _ _); simpl;
    destruct (decide _); simpl; auto.
Qed.

(** X19. The mode button toggles.  A left press inside the mode button
    turns output mode 0 (MIDI CC) into 1 (pitch bend) and 1 into 0, so two
    presses bring the mode back; the arm length is not touched. *)
Theorem mode_button_toggles (s : t) (mouse_x mouse_y mouse_x' mouse_y' : Z) :
  (current_mode s = 0 \/ current_mode s = 1)%Z ->
  Base.collidepoint mode_button_x mode_button_y mode_button_width mode_button_height
    mouse_x mouse_y = true ->
  Base.collidepoint mode_button_x mode_button_y mode_button_width mode_button_height
    mouse_x' mouse_y' = true ->
  let s1 := handle_mouse_events s (Base.MOUSEBUTTONDOWN 1) mouse_x mouse_y in
  let s2 := handle_mouse_events s1 (Base.MOUSEBUTTONDOWN 1) mouse_x' mouse_y' in
  current_mode s1 = (1 - current_mode s)%Z
  /\ current_mode s2 = current_mode s
  /\ length s2 = length s.
Proof.
  intros Hm Hhit Hhit' s1 s2.
  destruct (press_fields s mouse_x mouse_y) as (HL1 & Hm1 & _).
  destruct (press_fields s1 mouse_x' mouse_y') as (HL2 & Hm2 & _).
  fold s1 in HL1, Hm1. fold s2 in HL2, Hm2.
  unfold press_mode in Hm1, Hm2. rewrite Hhit in Hm1. rewrite Hhit' in Hm2.
  simpl in Hm1, Hm2.
  assert (H1 : current_mode s1 = (1 - current_mode s)%Z)
    by (rewrite Hm1; destruct Hm as [-> | ->]; reflexivity).
  split; [exact H1|]. split; [|congruence].
  rewrite Hm2, H1. destruct Hm as [-> | ->]; reflexivity.
Qed.

(** X20. The length slider follows the pointer from where it was grabbed:
    after a left press inside it, a drag event with the pointer
    [mouse_y - mouse_y'] pixels higher sets the arm length to
    [100 + 200 * clamp((length - 100) / 200 + (mouse_y - mouse_y') / 200)],
    the clamp being to [0,1]; the result is always within [100,300], and a
    drag at the press height gives back a length that was within
    [100,300]. *)
Theorem length_slider_drag (s : t) (mouse_x mouse_y mouse_x' mouse_y' : Z) :
  Base.collidepoint length_slider_x length_slider_y length_slider_width
    length_slider_height mouse_x mouse_y = true ->
  let s1 := handle_mouse_events s (Base.MOUSEBUTTONDOWN 1) mouse_x mouse_y in
  let s2 := handle_mouse_events s1 Base.MOUSEMOTION mouse_x' mouse_y' in
  length s1 = length s
  /\ dragging_length s1 = true
  /\ length s2
     = 100 + Py.clamp 0 1 ((length s - 100) / 200 + (IZR mouse_y - IZR mouse_y') / 200)
             * 200
  /\ length_ok s2
  /\ (length_ok s -> mouse_y' = mouse_y -> length s2 = length s).
Proof.
  intros Hhit s1 s2.
  destruct (press_fields s mouse_x mouse_y) as (HL1 & _ & Hd1 & Ho1).
  fold s1 in HL1, Hd1, Ho1.
  unfold press_length in Hd1, Ho1. rewrite Hhit in Hd1, Ho1.
  cbn [dragging_length mouse_offset] in Hd1, Ho1.
  assert (H2 : length s2
               = 100 + Py.clamp 0 1 ((length s - 100) / 200
                                     + (IZR mouse_y - IZR mouse_y') / 200) * 200).
  { unfold s2, handle_mouse_events. rewrite Hd1. cbn [length]. rewrite Ho1.
    unfold min_length, max_length, length_slider_y, length_slider_height.
    replace (1 - (IZR mouse_y' - (IZR mouse_y - (IZR 150 + IZR 200
               - (length s - IZR 100) / (IZR 300 - IZR 100) * IZR 200)) - IZR 150)
                 / IZR 200)
      with ((length s - 100) / 200 + (IZR mouse_y - IZR mouse_y') / 200) by lra.
    lra. }
  split; [exact HL1|]. split; [exact Hd1|]. split; [exact H2|].
  pose proof (clamp_bounds 0 1 ((length s - 100) / 200
                                + (IZR mouse_y - IZR mouse_y') / 200) ltac:(lra)) as Hc.
  split.
  - unfold length_ok, min_length, max_length. rewrite H2. lra.
  - unfold length_ok, min_length, max_length. intros HL ->. rewrite H2.
    rewrite clamp_id; lra.
Qed.

Lemma no_event_frames (s : t) (n : nat) :
  Loop.pendulum_run s (replicate (Datatypes.S n) [])
  = s1 ← update s; Loop.pendulum_run s1 (replicate n []).
Proof.
  unfold Loop.pendulum_run. simpl. unfold Loop.frame. simpl.
  destruct (update s); reflexivity.
Qed.

(** X21. Hanging straight down is a rest position.  A pendulum with angle 0
    and angular velocity 0, with an arm length other than zero, has angle 0
    and angular velocity 0 after any number of frames without events. *)
Theorem pendulum_rest (s : t) (n : nat) :
  length s <> 0 ->
  angle s = 0 ->
  angular_velocity s = 0 ->
  exists s1,
    Loop.pendulum_run s (replicate n []) = Some s1
    /\ angle s1 = 0 /\ angular_velocity s1 = 0 /\ length s1 = length s.
Proof.
  revert s. induction n as [|n IH]; intros s HL Ha Hv; [exists s; auto|].
  rewrite no_event_frames.
  assert (Hu : exists s1, update s = Some s1 /\ angle s1 = 0
                          /\ angular_velocity s1 = 0 /\ length s1 = length s).
  { unfold update. destruct (dragging_pendulum s); simpl.
    - destruct (generate_midi_output_eq s HL) as (b & -> & _).
      eexists. split; [reflexivity|]. auto.
    - destruct (update_physics_eq s HL) as (sp & -> & Hav & Han & Hlen & _). simpl.
      assert (HLp : length sp <> 0) by (rewrite Hlen; exact HL).
      destruct (generate_midi_output_eq sp HLp) as (b & -> & _).
      eexists. split; [reflexivity|]. simpl.
      rewrite Ha, Hv, sin_0 in Hav.
      assert (Hav0 : angular_velocity sp = 0) by (rewrite Hav; lra).
      rewrite Han, Ha, Hav0. split; [lra|auto]. }
  destruct Hu as (s1 & -> & Ha1 & Hv1 & HL1). simpl.
  destruct (IH s1) as (s2 & Hrun & ? & ? & ?); [congruence|assumption|assumption|].
  exists s2. rewrite Hrun. split; [reflexivity|]. repeat split; congruence.
Qed.

(** X22. Grabbing the bob freezes the pendulum.  After a left press within
    two bob radii of the bob, for as many frames without events as the
    button stays down, the angle is the one at press time and the angular
    velocity is 0. *)
Theorem pendulum_hold (s : t) (mouse_x mouse_y : Z) (n : nat) :
  length s <> 0 ->
  sqrt ((IZR mouse_x - (calculate_pendulum_position s).1) ^ 2
        + (IZR mouse_y - (calculate_pendulum_position s).2) ^ 2)
  < IZR (bob_radius * 2) ->
  exists s2,
    Loop.pendulum_run (handle_mouse_events s (Base.MOUSEBUTTONDOWN 1) mouse_x mouse_y)
      (replicate n []) = Some s2
    /\ dragging_pendulum s2 = true
    /\ angle s2 = angle s
    /\ angular_velocity s2 = 0.
Proof.
  intros HL Hhit.
  destruct (pendulum_press_zeroes_velocity s mouse_x mouse_y Hhit) as (Hd & Hv & Ha).
  destruct (press_fields s mouse_x mouse_y) as (HL1 & _).
  set (s1 := handle_mouse_events s _ _ _) in *.
  assert (HL1' : length s1 <> 0) by (rewrite HL1; exact HL).
  rewrite <- Ha. clear Ha HL1 Hhit HL. revert Hd Hv HL1'. generalize s1. clear s1.
  induction n as [|n IH]; intros s1 Hd Hv HL; [exists s1; auto|].
  rewrite no_event_frames.
  destruct (generate_midi_output_eq s1 HL) as (b & Hgo & _).
  assert (Hu : update s1 = Some (set_base s1 b))
    by (unfold update; rewrite Hd; exact Hgo).
  rewrite Hu. simpl.
  destruct (IH (set_base s1 b)) as (s2 & Hrun & ? & ? & ?); try assumption.
  exists s2. rewrite Hrun. auto.
Qed.

End pendulum_controls.

(** ** The connection test's sweep *)

Section sweep.

Import Sweep.

Lemma INR_le_const (k m : nat) : (k <= m)%nat -> INR k <= IZR (Z.of_nat m).
Proof. intros H. rewrite <- INR_IZR_INZ. apply le_INR, H. Qed.

Lemma update_value (s : t) :
  test_value (update s) = Py.clamp 0 127 (test_value s + IZR (direction s) * 0.5)
  /\ direction (update s)
     = (if decide (test_value s + IZR (direction s) * 0.5 >= 127) then (-1)%Z
        else if decide (test_value s + IZR (direction s) * 0.5 <= 0) then 1%Z
        else direction s).
Proof.
  unfold update. case_decide_R; simpl; split; try reflexivity; split_R; lra.
Qed.

Lemma sweep_up (k : nat) :
  (k <= 254)%nat ->
  test_value (Nat.iter k update init) = INR k / 2
  /\ direction (Nat.iter k update init) = (if decide (k = 254%nat) then -1 else 1)%Z.
Proof.
  induction k as [|k IH]; intros Hk.
  - simpl. split; [lra|reflexivity].
  - destruct IH as [Hv Hd]; [lia|]. rewrite decide_False in Hd by lia.
    rewrite Nat.iter_succ. destruct (update_value (Nat.iter k update init)) as [-> ->].
    rewrite Hv, Hd, S_INR.
    assert (Hk' : INR k <= 253) by (apply (INR_le_const k 253); lia).
    pose proof (pos_INR k).
    split; [rewrite clamp_id; lra|].
    destruct (decide (Datatypes.S k = 254%nat)) as [Heq|Hne].
    + assert (INR k = 253) by (replace k with 253%nat by lia; apply INR_IZR_INZ).
      rewrite decide_True by lra. reflexivity.
    + assert (INR k <= 252) by (apply (INR_le_const k 252); lia).
      rewrite !decide_False by lra. reflexivity.
Qed.

Lemma sweep_down (k : nat) :
  (k <= 254)%nat ->
  test_value (Nat.iter (254 + k) update init) = 127 - INR k / 2
  /\ direction (Nat.iter (254 + k) update init)
     = (if decide (k = 254%nat) then 1 else -1)%Z.
Proof.
  induction k as [|k IH]; intros Hk.
  - rewrite Nat.add_0_r. destruct (sweep_up 254 ltac:(lia)) as [-> ->].
    split; [rewrite !INR_IZR_INZ; change (Z.of_nat 254) with 254%Z;
            change (Z.of_nat 0) with 0%Z; lra|reflexivity].
  - destruct IH as [Hv Hd]; [lia|]. rewrite decide_False in Hd by lia.
    replace (254 + Datatypes.S k)%nat with (Datatypes.S (254 + k)) by lia.
    rewrite Nat.iter_succ.
    destruct (update_value (Nat.iter (254 + k) update init)) as [-> ->].
    rewrite Hv, Hd, S_INR.
    assert (Hk' : INR k <= 253) by (apply (INR_le_const k 253); lia).
    pose proof (pos_INR k).
    split; [rewrite clamp_id; lra|].
    destruct (decide (Datatypes.S k = 254%nat)) as [Heq|Hne].
    + assert (INR k = 253) by (replace k with 253%nat by lia; apply INR_IZR_INZ).
      rewrite decide_False by lra. rewrite decide_True by lra. reflexivity.
    + assert (INR k <= 252) by (apply (INR_le_const k 252); lia).
      rewrite !decide_False by lra. reflexivity.
Qed.

(** X23. The sweep of the connection test is a triangle wave.  Whatever the
    state, the value after an update is within [0,127].  From the initial
    state the value after [k] updates is [k / 2] for [k] up to 254, where it
    reaches 127 and the direction turns; after [254 + k] updates it is
    [127 - k / 2], reaching 0 with the direction up again after 508
    updates. *)
Theorem sweep_is_triangle :
  (forall s : t, 0 <= test_value (update s) <= 127)
  /\ (forall k : nat, (k <= 254)%nat ->
        test_value (Nat.iter k update init) = INR k / 2
        /\ test_value (Nat.iter (254 + k) update init) = 127 - INR k / 2)
  /\ test_value (Nat.iter 508 update init) = 0
  /\ direction (Nat.iter 508 update init) = 1%Z.
Proof.
  split; [|split].
  - intros s. destruct (update_value s) as [-> _]. apply clamp_bounds. lra.
  - intros k Hk. split; [apply sweep_up, Hk|apply sweep_down, Hk].
  - destruct (sweep_down 254 ltac:(lia)) as [Hv Hd].
    change (254 + 254)%nat with 508%nat in Hv, Hd. rewrite Hv, Hd.
    split; [rewrite INR_IZR_INZ; change (Z.of_nat 254) with 254%Z; lra|reflexivity].
Qed.

End sweep.

(** ** The further properties at concrete inputs *)

Section more_instances.

Lemma send_cc_writes_example :
  let b := {| Base.midi_out := Some []; Base.midi_channel := 1 |} in
  Inv.log (Base.send_cc b 74 (127 / 2)) = [(177, 74, Py.int (127 / 2))]%Z
  /\ (0 <= Py.int (127 / 2) <= 127)%Z.
Proof.
  intros b.
  destruct (send_cc_writes b 74 (127 / 2)) as (H1 & H2 & _).
  - eexists; reflexivity.
  - simpl. lia.
  - lia.
  - lra.
  - split; [exact H1|exact H2].
Defined.

Lemma send_cc_drops_example : Base.send_cc Base.init 74 64 = Base.init.
Proof. apply (send_cc_drops Base.init 74 64). left. reflexivity. Defined.

Lemma send_pitch_bend_round_trip_example :
  let b := {| Base.midi_out := Some []; Base.midi_channel := 1 |} in
  exists lsb msb,
    Inv.log (Base.send_pitch_bend b (-3)) = [(225, lsb, msb)]%Z
    /\ (lsb + 128 * msb - 8192 = -3)%Z.
Proof.
  intros b.
  destruct (send_pitch_bend_round_trip b (-3)) as (lsb & msb & H1 & _ & _ & _ & H5).
  - eexists; reflexivity.
  - simpl. lia.
  - exists lsb, msb. split; [exact H1|apply H5; lia].
Defined.

Lemma gravity_run_safe_example :
  exists s1,
    Loop.gravity_run Gravity.init
      [ [(Loop.MOUSE (Base.MOUSEBUTTONDOWN 1), 140, 350)%Z];
        [(Loop.MOUSE Base.MOUSEMOTION, 140, 250)%Z];
        [(Loop.KEYDOWN 27, 140, 250)%Z] ] = Some s1
    /\ Inv.gravity s1.
Proof.
  destruct (gravity_run_safe Gravity.init
              [ [(Loop.MOUSE (Base.MOUSEBUTTONDOWN 1), 140, 350)%Z];
                [(Loop.MOUSE Base.MOUSEMOTION, 140, 250)%Z];
                [(Loop.KEYDOWN 27, 140, 250)%Z] ] init_invariant)
    as (s1 & H1 & H2 & _).
  exists s1. split; [exact H1|exact H2].
Defined.

Lemma gravity_slider_drag_example :
  exists s1 s2,
    Gravity.handle_mouse_events Gravity.init (Base.MOUSEBUTTONDOWN 1) 610 250 = Some s1
    /\ Gravity.handle_mouse_events (Gravity.ticks 3 s1) Base.MOUSEMOTION 610 210 = Some s2
    /\ Gravity.gravity_strength s2 = Py.clamp 0 1 (0.5 + (IZR 250 - IZR 210) / 200).
Proof.
  destruct (gravity_slider_drag Gravity.init 610 250 610 210 3)
    as (s1 & s2 & H1 & _ & _ & _ & H5 & H6 & _); try reflexivity.
  exists s1, s2. split; [exact H1|]. split; [exact H5|exact H6].
Defined.

Lemma press_release_round_trip_example :
  exists s1 s2,
    Gravity.handle_mouse_events Gravity.init (Base.MOUSEBUTTONDOWN 1) 140 350 = Some s1
    /\ Gravity.handle_mouse_events s1 (Base.MOUSEBUTTONUP 1) 140 350 = Some s2
    /\ Gravity.controllers s2 = Gravity.controllers Gravity.init
    /\ Gravity.dragging_controller s2 = None.
Proof.
  pose proof (press_on_slider Gravity.init 0
                (Gravity.mk_controller 74 64 0 "Controller 1") 140 350
                ltac:(lia) eq_refl eq_refl) as H1.
  set (s1 := Gravity.mk _ _ _ _ _ _) in H1.
  assert (H2 : Gravity.handle_mouse_events s1 (Base.MOUSEBUTTONUP 1) 140 350
               = Some {| Gravity.base := Gravity.base s1;
                         Gravity.controllers := Gravity.controllers s1;
                         Gravity.gravity_strength := Gravity.gravity_strength s1;
                         Gravity.dragging_controller := None;
                         Gravity.dragging_gravity := false;
                         Gravity.mouse_offset := Gravity.mouse_offset s1 |})
    by reflexivity.
  destruct (press_release_round_trip _ _ _ 140 350 140 350 0 0 H1 H2)
    as (_ & H4 & _ & H6 & _).
  eexists _, _. split; [exact H1|]. split; [exact H2|]. split; [exact H4|exact H6].
Defined.

Lemma deadzone_is_absorbing_example :
  exists cn,
    Gravity.controllers (Gravity.ticks 5 Gravity.init) !! 1%nat = Some cn
    /\ Gravity.value cn = 64 /\ Gravity.velocity cn = 0.
Proof.
  destruct (deadzone_is_absorbing Gravity.init 1
              (Gravity.mk_controller 75 64 0 "Controller 2") 4)
    as (cn & H1 & H2 & H3 & _).
  - simpl. lra.
  - reflexivity.
  - simpl. rewrite Rminus_diag, Rabs_R0. lra.
  - exists cn. auto.
Defined.

Lemma zero_gravity_is_still_example :
  let c := Gravity.mk_controller 74 100 0 "Controller 1" in
  let s := {| Gravity.base := Base.init; Gravity.controllers := [c];
              Gravity.gravity_strength := 0; Gravity.dragging_controller := None;
              Gravity.dragging_gravity := false; Gravity.mouse_offset := 0 |} in
  Gravity.controllers (Gravity.ticks 10 s) !! 0%nat = Some c.
Proof.
  intros c s. apply (zero_gravity_is_still s 0 c 10); try reflexivity. simpl. lra.
Defined.

Lemma closest_label_is_closest_init :
  exists k label,
    Labels.get_closest_gravity_label Gravity.init = Some label
    /\ Rabs (k - 0.5) <= Rabs (0.8 - 0.5).
Proof.
  destruct (closest_label_is_closest Gravity.init) as (k & label & H1 & _ & H3).
  exists k, label. split; [exact H1|].
  apply (H3 0.8 "Jupiter"%string). simpl. auto.
Defined.

Lemma closest_label_thresholds_init :
  Labels.get_closest_gravity_label Gravity.init = Some "Earth"%string.
Proof.
  rewrite (closest_label_thresholds Gravity.init) by (simpl; lra).
  simpl. rewrite !decide_False by lra. rewrite decide_True by lra. reflexivity.
Defined.

Lemma update_particle_in_band_example :
  let p := Particle.mk_particle 16 200 (-3) 1 15 74 75 in
  let q := Particle.update_particle 1 p in
  15 <= Particle.x q <= 385 /\ Rabs (Particle.vx q) = Rabs (-3).
Proof.
  intros p q.
  destruct (update_particle_in_band 1 p) as (H1 & _ & H3 & _);
    try (unfold Particle.sim_width, Particle.sim_height; simpl; lra).
  change (Particle.radius p) with 15 in H1.
  change (IZR Particle.sim_width) with 400 in H1. cbv zeta in H1, H3.
  fold q in H1, H3. clearbody q. split; [lra|exact H3].
Defined.

Lemma collision_conserves_energy_example :
  let q1 := Particle.mk_particle 95 100 0 0 15 74 75 in
  let q2 := Particle.mk_particle 125 100 3 0 15 76 77 in
  Particle.vx q1 * Particle.vx q1 + Particle.vy q1 * Particle.vy q1
  + Particle.vx q2 * Particle.vx q2 + Particle.vy q2 * Particle.vy q2
  = 3 * 3 + 0 * 0 + 0 * 0 + 0 * 0.
Proof.
  intros q1 q2.
  exact (collision_conserves_energy
           (Particle.mk_particle 100 100 3 0 15 74 75)
           (Particle.mk_particle 120 100 0 0 15 76 77) q1 q2
           (proj2 collision_head_on_example)).
Defined.

Lemma temperature_slider_drag_example :
  let s := Particle.init 100 100 300 300 1 1 (-1) (-1) in
  let s1 := Particle.handle_mouse_events s (Base.MOUSEBUTTONDOWN 1) 510 250 in
  let s2 := Particle.handle_mouse_events s1 Base.MOUSEMOTION 510 150 in
  Particle.temperature s2 = Py.clamp 0 1 (0.5 + (IZR 250 - IZR 150) / 200).
Proof.
  intros s s1 s2.
  destruct (temperature_slider_drag s 510 250 510 150) as (_ & _ & H3 & _).
  - reflexivity.
  - exact H3.
Defined.

Lemma particle_run_safe_example :
  exists s1,
    Loop.particle_run (Particle.init 100 100 300 300 1 1 (-1) (-1))
      [ []; [(Loop.MOUSE (Base.MOUSEBUTTONDOWN 1), 510, 250)%Z]; [] ] = Some s1
    /\ Inv.particle s1.
Proof.
  destruct (particle_run_safe (Particle.init 100 100 300 300 1 1 (-1) (-1))
              [ []; [(Loop.MOUSE (Base.MOUSEBUTTONDOWN 1), 510, 250)%Z]; [] ])
    as (s1 & H1 & H2 & _).
  - unfold Inv.particle. simpl. lra.
  - exists s1. auto.
Defined.

Lemma particle_midi_scale_example :
  (4 <= Particle.x_midi (Particle.mk_particle 15 385 0 0 15 74 75) <= 122)%Z.
Proof.
  destruct particle_midi_scale as (_ & _ & H).
  apply (H (Particle.mk_particle 15 385 0 0 15 74 75));
    unfold Particle.sim_width, Particle.sim_height; simpl; lra.
Defined.

Lemma pendulum_output_of_angle_init :
  Pendulum.cc_value 200 (Pendulum.calculate_pendulum_position Pendulum.init).1
  = Some (Py.int ((sin (PI / 4) + 1) / 2 * 127)).
Proof.
  destruct (pendulum_output_of_angle Pendulum.init) as (H1 & _).
  - simpl. lra.
  - exact H1.
Defined.

Lemma pendulum_drag_angle_example :
  let s := {| Pendulum.base := Base.init; Pendulum.length := 200;
              Pendulum.angle := PI / 4; Pendulum.angular_velocity := 0;
              Pendulum.current_mode := 0; Pendulum.cc_number := 74;
              Pendulum.trail_points := []; Pendulum.dragging_length := false;
              Pendulum.dragging_pendulum := true; Pendulum.mouse_offset := 0 |} in
  let s1 := Pendulum.handle_mouse_events s Base.MOUSEMOTION 500 250 in
  Pendulum.angle s1 = atan (IZR (500 - Pendulum.pivot_x) / IZR (250 - Pendulum.pivot_y))
  /\ - PI / 2 < Pendulum.angle s1 < PI / 2.
Proof.
  intros s s1.
  destruct (pendulum_drag_angle s 500 250 eq_refl eq_refl) as [H _].
  destruct H as (H1 & H2 & _); [unfold Pendulum.pivot_y; lia|].
  split; [exact H1|exact H2].
Defined.

Lemma pendulum_run_safe_init :
  exists s1,
    Loop.pendulum_run Pendulum.init
      [ []; [(Loop.MOUSE (Base.MOUSEBUTTONDOWN 1), 560, 410)%Z]; [] ] = Some s1
    /\ Inv.pendulum s1.
Proof.
  destruct (pendulum_run_safe Pendulum.init
              [ []; [(Loop.MOUSE (Base.MOUSEBUTTONDOWN 1), 560, 410)%Z]; [] ]
              init_pendulum_invariant) as (s1 & H1 & H2 & _).
  exists s1. auto.
Defined.

Lemma mode_button_toggles_init :
  let s1 := Pendulum.handle_mouse_events Pendulum.init (Base.MOUSEBUTTONDOWN 1) 560 410 in
  let s2 := Pendulum.handle_mouse_events s1 (Base.MOUSEBUTTONDOWN 1) 600 420 in
  Pendulum.current_mode s1 = 1%Z /\ Pendulum.current_mode s2 = 0%Z.
Proof.
  destruct (mode_button_toggles Pendulum.init 560 410 600 420) as (H1 & H2 & _).
  - left. reflexivity.
  - reflexivity.
  - reflexivity.
  - split; [exact H1|exact H2].
Defined.

Lemma length_slider_drag_init :
  let s1 := Pendulum.handle_mouse_events Pendulum.init (Base.MOUSEBUTTONDOWN 1) 560 250 in
  let s2 := Pendulum.handle_mouse_events s1 Base.MOUSEMOTION 560 250 in
  Pendulum.length s2 = 200.
Proof.
  destruct (length_slider_drag Pendulum.init 560 250 560 250) as (_ & _ & _ & _ & H).
  - reflexivity.
  - apply H; [apply init_length_ok|reflexivity].
Defined.

Lemma pendulum_rest_example :
  let s := {| Pendulum.base := Base.init; Pendulum.length := 200;
              Pendulum.angle := 0; Pendulum.angular_velocity := 0;
              Pendulum.current_mode := 0; Pendulum.cc_number := 74;
              Pendulum.trail_points := []; Pendulum.dragging_length := false;
              Pendulum.dragging_pendulum := false; Pendulum.mouse_offset := 0 |} in
  exists s1,
    Loop.pendulum_run s (replicate 60 []) = Some s1
    /\ Pendulum.angle s1 = 0 /\ Pendulum.angular_velocity s1 = 0.
Proof.
  intros s.
  destruct (pendulum_rest s 60) as (s1 & H1 & H2 & H3 & _);
    try reflexivity; [simpl; lra|].
  exists s1. auto.
Defined.

Lemma pendulum_hold_example :
  let s := {| Pendulum.base := Base.init; Pendulum.length := 200;
              Pendulum.angle := 0; Pendulum.angular_velocity := 1;
              Pendulum.current_mode := 0; Pendulum.cc_number := 74;
              Pendulum.trail_points := []; Pendulum.dragging_length := false;
              Pendulum.dragging_pendulum := false; Pendulum.mouse_offset := 0 |} in
  exists s2,
    Loop.pendulum_run
      (Pendulum.handle_mouse_events s (Base.MOUSEBUTTONDOWN 1) 400 350)
      (replicate 10 []) = Some s2
    /\ Pendulum.angle s2 = 0 /\ Pendulum.angular_velocity s2 = 0.
Proof.
  intros s.
  destruct (pendulum_hold s 400 350 10) as (s2 & H1 & _ & H3 & H4).
  - simpl. lra.
  - unfold s, Pendulum.calculate_pendulum_position, Pendulum.pivot_x, Pendulum.pivot_y,
      Pendulum.bob_radius. cbn [Pendulum.length Pendulum.angle fst snd].
    rewrite sin_0, cos_0.
    replace ((400 - (400 + 200 * 0)) ^ 2 + (350 - (150 + 200 * 1)) ^ 2) with 0 by lra.
    rewrite sqrt_0. apply IZR_lt. reflexivity.
  - exists s2. auto.
Defined.

Lemma sweep_is_triangle_at_100 :
  Sweep.test_value (Nat.iter 100 Sweep.update Sweep.init) = INR 100 / 2.
Proof.
  destruct sweep_is_triangle as (_ & H & _).
  apply (H 100%nat). lia.
Defined.

End more_instances.
